(** * unpaper, lib/options.c: option-value parsers and the default options

    A shallow embedding of [src/lib/options.c].  C strings are [string]s
    (the terminating NUL is the end of the Rocq string), [int32_t] values
    are [Z] with the wrap-around written out, output parameters are passed
    in and returned (the old contents of a slot matter: [sscanf] stores
    the fields it converted and leaves the others alone), and the two
    streams written by the code, [stdout] and [stderr], are the strings
    the functions return. *)

From Stdlib Require Import ZArith String Ascii List Bool Lia.
From stdpp Require Import base list.
Import ListNotations.

Local Open Scope string_scope.
Local Open Scope Z_scope.

(** ** Value types of [lib/options.h] and [imageprocess/primitives.h]

    Each C struct is a record in a module of its own, so that the field
    names of the source can be kept ([Delta.horizontal] and
    [Direction.horizontal] are different fields). *)

Module Point.
Record t : Type := mk { x : Z; y : Z }.
End Point.

Module Rectangle.
(** [Point vertex[2]]: the two cells of the array are two fields. *)
Record t : Type := mk { vertex0 : Point.t; vertex1 : Point.t }.
End Rectangle.

Module RectangleSize.
Record t : Type := mk { width : Z; height : Z }.
End RectangleSize.

Module Delta.
Record t : Type := mk { horizontal : Z; vertical : Z }.
End Delta.

Module Border.
Record t : Type := mk { left : Z; top : Z; right : Z; bottom : Z }.
End Border.

Module Direction.
Record t : Type := mk { horizontal : bool; vertical : bool }.
End Direction.

Module Pixel.
(** Three [uint8_t] channels. *)
Record t : Type := mk { r : Z; g : Z; b : Z }.
End Pixel.

(** ** Machine integers *)

Definition INT32_MIN : Z := - 2 ^ 31.
Definition INT32_MAX : Z := 2 ^ 31 - 1.
Definition LONG_MIN : Z := - 2 ^ 63.
Definition LONG_MAX : Z := 2 ^ 63 - 1.

Definition in_int32 (z : Z) : Prop := INT32_MIN <= z <= INT32_MAX.

(** Conversion of a wider integer to [int32_t]: reduction modulo 2^32
    into the signed range. *)
Definition to_int32 (z : Z) : Z := (z + 2 ^ 31) mod 2 ^ 32 - 2 ^ 31.

(** The same 32 bits read as a [uint32_t]. *)
Definition to_uint32 (z : Z) : Z := z mod 2 ^ 32.

(** ** The C library: character classes *)

Definition char_code (c : ascii) : Z := Z.of_N (N_of_ascii c).

(** [isspace] in the C locale: space, and the controls \t \n \v \f \r. *)
Definition isspace (c : ascii) : bool :=
  (char_code c =? 32) || ((9 <=? char_code c) && (char_code c <=? 13)).

Definition isdigit (c : ascii) : bool :=
  (48 <=? char_code c) && (char_code c <=? 57).

Definition digit_value (c : ascii) : Z := char_code c - 48.

(** [tolower] in the C locale, on character codes. *)
Definition tolower (c : ascii) : Z :=
  if (65 <=? char_code c) && (char_code c <=? 90)
  then char_code c + 32 else char_code c.

(** ** The C library: [sscanf]

    A conversion specification consumes a prefix of the input and either
    converts it, or fails because the input does not match, or fails
    because the input ended before the item began. *)

Inductive conv_result (T : Type) : Type :=
| Converted (v : T) (rest : string)
| MatchFailure
| InputFailure.
Arguments Converted {T} v rest.
Arguments MatchFailure {T}.
Arguments InputFailure {T}.

Fixpoint skip_space (s : string) : string :=
  match s with
  | String c s' => if isspace c then skip_space s' else s
  | EmptyString => s
  end.

(** The digits at the head of [s], accumulated in base ten onto [acc]. *)
Fixpoint scan_digits (acc : Z) (s : string) : Z * string :=
  match s with
  | String c s' =>
      if isdigit c then scan_digits (10 * acc + digit_value c) s' else (acc, s)
  | EmptyString => (acc, s)
  end.

Definition starts_with_digit (s : string) : bool :=
  match s with
  | String c _ => isdigit c
  | EmptyString => false
  end.

(** [strtol] saturates at the bounds of [long]. *)
Definition strtol_saturate (z : Z) : Z := Z.max LONG_MIN (Z.min LONG_MAX z).

(** The conversion [%d] with an [int32_t] destination ([SCNd32] is ["d"]):
    white space is skipped, then an optional sign and a non-empty run of
    decimal digits is read.  A number that does not fit is undefined
    behaviour in ISO C; the model follows glibc on LP64, which converts
    with [strtol] and stores the low 32 bits. *)
Definition conv_d (s : string) : conv_result Z :=
  match skip_space s with
  | EmptyString => InputFailure
  | String c s1 =>
      let '(negative, s2) :=
        if Ascii.eqb c "-" then (true, s1)
        else if Ascii.eqb c "+" then (false, s1)
        else (false, String c s1) in
      if starts_with_digit s2 then
        let '(m, rest) := scan_digits 0 s2 in
        Converted (to_int32 (strtol_saturate (if negative then - m else m))) rest
      else MatchFailure
  end.

(** A format is a sequence of directives; the formats of this file are made
    of conversions of one type and of ordinary characters. *)
Inductive directive : Type :=
| Conv
| Lit (c : ascii).

Definition EOF : Z := -1.

Section Sscanf.
Context {T : Type} (conv : string -> conv_result T).

(** [sscanf_from fmt s done]: the directives [fmt] applied to the input
    [s] after the values [done] have been stored.  The result is the
    return value of [sscanf] and the values stored, in the order of the
    pointer arguments. *)
Fixpoint sscanf_from (fmt : list directive) (s : string) (done : list T)
  : Z * list T :=
  match fmt with
  | [] => (Z.of_nat (length done), done)
  | Conv :: fmt' =>
      match conv s with
      | Converted v rest => sscanf_from fmt' rest (done ++ [v])
      | MatchFailure => (Z.of_nat (length done), done)
      | InputFailure =>
          (match done with [] => EOF | _ => Z.of_nat (length done) end, done)
      end
  | Lit c :: fmt' =>
      match s with
      | String c' s' =>
          if Ascii.eqb c' c then sscanf_from fmt' s' done
          else (Z.of_nat (length done), done)
      | EmptyString =>
          (match done with [] => EOF | _ => Z.of_nat (length done) end, done)
      end
  end.

Definition sscanf (s : string) (fmt : list directive) : Z * list T :=
  sscanf_from fmt s [].

(** The content of the [i]-th destination after the call: the value
    stored there, or the old content [old] when the scan stopped before. *)
Definition stored (vals : list T) (i : nat) (old : T) : T :=
  default old (vals !! i).

(** The input holds four values separated by single commas: each
    conversion succeeds and each of the first three is followed by a
    comma. *)
Definition four_values (s : string) (a b c d : T) : Prop :=
  exists s1 s2 s3 rest,
    conv s = Converted a (String "," s1)
    /\ conv s1 = Converted b (String "," s2)
    /\ conv s2 = Converted c (String "," s3)
    /\ conv s3 = Converted d rest.
End Sscanf.

(** The two formats of the file: ["%d,%d"] (and ["%f,%f"]) and
    ["%d,%d,%d,%d"]. *)
Definition fmt_pair : list directive := [Conv; Lit ","; Conv].
Definition fmt_quad : list directive :=
  [Conv; Lit ","; Conv; Lit ","; Conv; Lit ","; Conv].

(** ** The C library: [printf]

    [%d]: the decimal digits of a number, most significant first.  [fuel]
    bounds the number of digits; twenty suffice for any 64-bit value. *)
Definition digit_char (d : Z) : ascii := ascii_of_N (Z.to_N (48 + d)).

Fixpoint decimal_digits (fuel : nat) (n : Z) (acc : string) : string :=
  match fuel with
  | O => acc
  | S fuel' =>
      let acc' := String (digit_char (n mod 10)) acc in
      if n <? 10 then acc' else decimal_digits fuel' (n / 10) acc'
  end.

Definition print_d (n : Z) : string :=
  if n <? 0 then String "-" (decimal_digits 20 (- n) EmptyString)
  else decimal_digits 20 n EmptyString.

(** [%02x]: lower-case hexadecimal, padded with zeros to two digits. *)
Definition hex_char (d : Z) : ascii :=
  if d <? 10 then ascii_of_N (Z.to_N (48 + d)) else ascii_of_N (Z.to_N (87 + d)).

Fixpoint hex_digits (fuel : nat) (n : Z) (acc : string) : string :=
  match fuel with
  | O => acc
  | S fuel' =>
      let acc' := String (hex_char (n mod 16)) acc in
      if n <? 16 then acc' else hex_digits fuel' (n / 16) acc'
  end.

Definition print_02x (n : Z) : string :=
  let s := hex_digits 16 n EmptyString in
  if (String.length s <? 2)%nat then String "0" s else s.

(** ** The C library: [string.h] and [strings.h] *)

(** [strcmp]: zero for equal strings, otherwise the difference of the first
    two characters that differ (the end of a string counts as code 0). *)
Fixpoint strcmp (s1 s2 : string) : Z :=
  match s1, s2 with
  | EmptyString, EmptyString => 0
  | EmptyString, String c2 _ => - char_code c2
  | String c1 _, EmptyString => char_code c1
  | String c1 s1', String c2 s2' =>
      if char_code c1 =? char_code c2 then strcmp s1' s2'
      else char_code c1 - char_code c2
  end.

(** [strcasecmp]: as [strcmp] on the lower-cased characters. *)
Fixpoint strcasecmp (s1 s2 : string) : Z :=
  match s1, s2 with
  | EmptyString, EmptyString => 0
  | EmptyString, String c2 _ => - tolower c2
  | String c1 _, EmptyString => tolower c1
  | String c1 s1', String c2 s2' =>
      if tolower c1 =? tolower c2 then strcasecmp s1' s2'
      else tolower c1 - tolower c2
  end.

(** [strchr]: the suffix of [s] that starts at the first occurrence of [c],
    [None] for the null pointer.  The terminator is part of the string, so
    looking for the character of code 0 finds the end. *)
Fixpoint strchr (s : string) (c : ascii) : option string :=
  match s with
  | String c' s' => if Ascii.eqb c' c then Some s else strchr s' c
  | EmptyString => if Ascii.eqb c zero then Some s else None
  end.

(** A pointer used as a truth value. *)
Definition non_null {A : Type} (p : option A) : bool :=
  match p with Some _ => true | None => false end.

(** ** The remaining structs of [lib/options.h] *)

Module MultiIndex.
(** [indexes] is a pointer: [None] is [NULL]. *)
Record t : Type := mk { count : Z; indexes : option (list Z) }.
End MultiIndex.

Module Wipes.
(** [Rectangle areas[N]; size_t count].  The array is a list whose length
    is the capacity [N], so that
    [sizeof(wipes->areas) / sizeof(wipes->areas[0])] is [capacity]. *)
Record t : Type := mk { areas : list Rectangle.t; count : nat }.
Definition capacity (w : t) : nat := length (areas w).
End Wipes.

Module Options.
(** The fields that [options_init] assigns.  The struct has more fields
    (declared in [lib/options.h]); [memset] zeroes them and nothing in
    this file reads them. *)
Record t : Type := mk {
  layout : Z;
  start_sheet : Z;
  end_sheet : Z;
  start_input : Z;
  start_output : Z;
  input_count : Z;
  output_count : Z;
  sheet_multi_index : MultiIndex.t;
  exclude_multi_index : MultiIndex.t;
  ignore_multi_index : MultiIndex.t;
  insert_blank : MultiIndex.t;
  replace_blank : MultiIndex.t;
  no_blackfilter_multi_index : MultiIndex.t;
  no_noisefilter_multi_index : MultiIndex.t;
  no_blurfilter_multi_index : MultiIndex.t;
  no_grayfilter_multi_index : MultiIndex.t;
  no_mask_scan_multi_index : MultiIndex.t;
  no_mask_center_multi_index : MultiIndex.t;
  no_deskew_multi_index : MultiIndex.t;
  no_wipe_multi_index : MultiIndex.t;
  no_border_multi_index : MultiIndex.t;
  no_border_scan_multi_index : MultiIndex.t;
  no_border_align_multi_index : MultiIndex.t;
  pre_shift : Delta.t;
  post_shift : Delta.t;
  sheet_size : RectangleSize.t;
  page_size : RectangleSize.t;
  post_page_size : RectangleSize.t;
  stretch_size : RectangleSize.t;
  post_stretch_size : RectangleSize.t
}.
End Options.

(** ** [lib/options.c] *)

Definition multi_index_empty : MultiIndex.t :=
  {| MultiIndex.count := 0; MultiIndex.indexes := None |}.

(** [memset(o, 0, sizeof(Options))]: every integer is zero and every
    pointer is null. *)
Definition memset_zero : Options.t :=
  let mi := {| MultiIndex.count := 0; MultiIndex.indexes := None |} in
  let d := {| Delta.horizontal := 0; Delta.vertical := 0 |} in
  let sz := {| RectangleSize.width := 0; RectangleSize.height := 0 |} in
  Options.mk 0 0 0 0 0 0 0 mi mi mi mi mi mi mi mi mi mi mi mi mi mi mi mi
             d d sz sz sz sz sz.

Section OptionsC.
(** What the file takes from headers that are not part of it: the
    enumerator [LAYOUT_SINGLE] of [lib/options.h], [count_pixels] of
    [imageprocess/primitives.h] (an unsigned pixel count), the two
    reserved colours, [pixel_from_value] and [compare_pixel] of
    [imageprocess/pixel.h], and, from the C library, the type [float]
    with its conversion [%f]. *)
Variable LAYOUT_SINGLE : Z.
Variable count_pixels : Rectangle.t -> Z.
Variables PIXEL_BLACK PIXEL_WHITE : Pixel.t.
Variable pixel_from_value : Z -> Pixel.t.
Variable compare_pixel : Pixel.t -> Pixel.t -> Z.
Variable float : Type.
Variable conv_f : string -> conv_result float.

(** The pointer [o] is written, never read: after the [memset] every
    field below is assigned once, in the order of the source. *)
Definition options_init (o : Options.t) : Options.t :=
  let o := memset_zero in
  {| Options.layout := LAYOUT_SINGLE;
     Options.start_sheet := 1;
     Options.end_sheet := -1;
     Options.start_input := -1;
     Options.start_output := -1;
     Options.input_count := 1;
     Options.output_count := 1;
     Options.sheet_multi_index :=
       {| MultiIndex.count := -1; MultiIndex.indexes := None |};
     Options.exclude_multi_index := multi_index_empty;
     Options.ignore_multi_index := multi_index_empty;
     Options.insert_blank := multi_index_empty;
     Options.replace_blank := multi_index_empty;
     Options.no_blackfilter_multi_index := multi_index_empty;
     Options.no_noisefilter_multi_index := multi_index_empty;
     Options.no_blurfilter_multi_index := multi_index_empty;
     Options.no_grayfilter_multi_index := multi_index_empty;
     Options.no_mask_scan_multi_index := multi_index_empty;
     Options.no_mask_center_multi_index := multi_index_empty;
     Options.no_deskew_multi_index := multi_index_empty;
     Options.no_wipe_multi_index := multi_index_empty;
     Options.no_border_multi_index := multi_index_empty;
     Options.no_border_scan_multi_index := multi_index_empty;
     Options.no_border_align_multi_index := multi_index_empty;
     Options.pre_shift := {| Delta.horizontal := 0; Delta.vertical := 0 |};
     Options.post_shift := {| Delta.horizontal := 0; Delta.vertical := 0 |};
     Options.sheet_size :=
       {| RectangleSize.width := -1; RectangleSize.height := -1 |};
     Options.page_size :=
       {| RectangleSize.width := -1; RectangleSize.height := -1 |};
     Options.post_page_size :=
       {| RectangleSize.width := -1; RectangleSize.height := -1 |};
     Options.stretch_size :=
       {| RectangleSize.width := -1; RectangleSize.height := -1 |};
     Options.post_stretch_size :=
       {| RectangleSize.width := -1; RectangleSize.height := -1 |} |}.

(** The four destinations are the coordinates of [rect]; whatever was
    converted is stored even when the function returns [false]. *)
Definition parse_rectangle (str : string) (rect : Rectangle.t)
  : bool * Rectangle.t :=
  let '(n, vals) := sscanf conv_d str fmt_quad in
  let rect :=
    {| Rectangle.vertex0 :=
         {| Point.x := stored vals 0 (Point.x (Rectangle.vertex0 rect));
            Point.y := stored vals 1 (Point.y (Rectangle.vertex0 rect)) |};
       Rectangle.vertex1 :=
         {| Point.x := stored vals 2 (Point.x (Rectangle.vertex1 rect));
            Point.y := stored vals 3 (Point.y (Rectangle.vertex1 rect)) |} |} in
  if negb (n =? 4) then (false, rect)
  else (0 <? count_pixels rect, rect).

Definition print_rectangle (rect : Rectangle.t) : string :=
  "[" ++ print_d (Point.x (Rectangle.vertex0 rect)) ++ ","
      ++ print_d (Point.y (Rectangle.vertex0 rect)) ++ ","
      ++ print_d (Point.x (Rectangle.vertex1 rect)) ++ ","
      ++ print_d (Point.y (Rectangle.vertex1 rect)) ++ "] ".

Definition parse_symmetric_integers (str : string) (value_1 value_2 : Z)
  : bool * (Z * Z) :=
  let '(n, vals) := sscanf conv_d str fmt_pair in
  let value_1 := stored vals 0 value_1 in
  let value_2 := stored vals 1 value_2 in
  if n =? 1 then (true, (value_1, value_1))
  else if n =? 2 then (true, (value_1, value_2))
  else (false, (value_1, value_2)).

Definition parse_symmetric_floats (str : string) (value_1 value_2 : float)
  : bool * (float * float) :=
  let '(n, vals) := sscanf conv_f str fmt_pair in
  let value_1 := stored vals 0 value_1 in
  let value_2 := stored vals 1 value_2 in
  if n =? 1 then (true, (value_1, value_1))
  else if n =? 2 then (true, (value_1, value_2))
  else (false, (value_1, value_2)).

Definition parse_rectangle_size (str : string) (size : RectangleSize.t)
  : bool * RectangleSize.t :=
  let '(ok, (w, h)) :=
    parse_symmetric_integers str (RectangleSize.width size)
                             (RectangleSize.height size) in
  let size := {| RectangleSize.width := w; RectangleSize.height := h |} in
  if negb ok then (false, size)
  else ((0 <=? RectangleSize.width size) && (0 <=? RectangleSize.height size),
        size).

Definition print_rectangle_size (size : RectangleSize.t) : string :=
  "[" ++ print_d (RectangleSize.width size) ++ ","
      ++ print_d (RectangleSize.height size) ++ "] ".

Definition parse_delta (str : string) (delta : Delta.t) : bool * Delta.t :=
  let '(ok, (h, v)) :=
    parse_symmetric_integers str (Delta.horizontal delta)
                             (Delta.vertical delta) in
  (ok, {| Delta.horizontal := h; Delta.vertical := v |}).

Definition parse_scan_step (str : string) (delta : Delta.t)
  : bool * Delta.t :=
  let '(ok, delta) := parse_delta str delta in
  if negb ok then (false, delta)
  else ((0 <? Delta.horizontal delta) && (0 <? Delta.vertical delta), delta).

Definition print_delta (delta : Delta.t) : string :=
  "[" ++ print_d (Delta.horizontal delta) ++ ","
      ++ print_d (Delta.vertical delta) ++ "] ".

(** [parse_wipe] returns its result, the list, and the text it wrote to
    [stderr].  The rectangle is parsed in place, into
    [wipes->areas[wipes->count]]; that index is inside the array because
    of the capacity test ([<[_:=_]>] leaves the list alone otherwise). *)
Definition parse_wipe (optname str : string) (wipes : Wipes.t)
  : bool * Wipes.t * string :=
  if (Wipes.capacity wipes <=? Wipes.count wipes)%nat then
    (false, wipes,
     optname ++ ": maximum number of wipes ("
             ++ print_d (Z.of_nat (Wipes.capacity wipes))
             ++ ") exceeded, ignoring '" ++ str ++ "'")
  else
    let slot :=
      default (Rectangle.mk (Point.mk 0 0) (Point.mk 0 0))
              (Wipes.areas wipes !! Wipes.count wipes) in
    let '(ok, rect) := parse_rectangle str slot in
    let wipes :=
      {| Wipes.areas := <[Wipes.count wipes := rect]> (Wipes.areas wipes);
         Wipes.count := Wipes.count wipes |} in
    if negb ok then
      (false, wipes,
       optname ++ ": invalid wipe definition, ignoring '" ++ str ++ "'")
    else
      (true,
       {| Wipes.areas := Wipes.areas wipes;
          Wipes.count := S (Wipes.count wipes) |},
       EmptyString).

Definition parse_border (str : string) (border : Border.t)
  : bool * Border.t :=
  let '(n, vals) := sscanf conv_d str fmt_quad in
  let border :=
    {| Border.left := stored vals 0 (Border.left border);
       Border.top := stored vals 1 (Border.top border);
       Border.right := stored vals 2 (Border.right border);
       Border.bottom := stored vals 3 (Border.bottom border) |} in
  if negb (n =? 4) then (false, border)
  else ((0 <=? Border.left border) && (0 <=? Border.top border)
        && (0 <=? Border.right border) && (0 <=? Border.bottom border),
        border).

Definition print_border (border : Border.t) : string :=
  "[" ++ print_d (Border.left border) ++ ","
      ++ print_d (Border.top border) ++ ","
      ++ print_d (Border.right border) ++ ","
      ++ print_d (Border.bottom border) ++ "] ".

(** [colorValue] is a [uint32_t] filled through [%d]: the 32 bits that
    the conversion stores are read back unsigned.  It is read only when
    the conversion took place. *)
Definition parse_color (str : string) (color : Pixel.t) : bool * Pixel.t :=
  if strcmp str "black" =? 0 then (true, PIXEL_BLACK)
  else if strcmp str "white" =? 0 then (true, PIXEL_WHITE)
  else
    let '(n, vals) := sscanf conv_d str [Conv] in
    if negb (n =? 1) then (false, color)
    else
      let colorValue := to_uint32 (stored vals 0 0) in
      (true, pixel_from_value colorValue).

Definition print_color (color : Pixel.t) : string :=
  if compare_pixel color PIXEL_BLACK =? 0 then "black"
  else if compare_pixel color PIXEL_WHITE =? 0 then "white"
  else "#" ++ print_02x (Pixel.r color) ++ print_02x (Pixel.g color)
           ++ print_02x (Pixel.b color).

Definition parse_direction (str : string) (direction : Direction.t)
  : bool * Direction.t :=
  let direction :=
    {| Direction.horizontal :=
         non_null (strchr str "h") || non_null (strchr str "H");
       Direction.vertical := Direction.vertical direction |} in
  let direction :=
    {| Direction.horizontal := Direction.horizontal direction;
       Direction.vertical :=
         non_null (strchr str "v") || non_null (strchr str "V") |} in
  (Direction.horizontal direction || Direction.vertical direction
   || (strcasecmp str "none" =? 0),
   direction).

Definition direction_to_string (direction : Direction.t) : string :=
  if Direction.horizontal direction && Direction.vertical direction
  then "[horizontal,vertical]"
  else if Direction.horizontal direction then "[horizontal]"
  else if Direction.vertical direction then "[vertical]"
  else "[none]".
End OptionsC.

(** ** The parts of the repository that the file only uses *)

Module SpecModel.
(** Modelled from the spec: [count_pixels] of [imageprocess/primitives],
    the enclosed pixel area of a rectangle, which is zero for a
    degenerate (zero-area) or inverted rectangle. *)
Definition count_pixels (rect : Rectangle.t) : Z :=
  let w := Point.x (Rectangle.vertex1 rect) - Point.x (Rectangle.vertex0 rect) in
  let h := Point.y (Rectangle.vertex1 rect) - Point.y (Rectangle.vertex0 rect) in
  if (0 <? w) && (0 <? h) then w * h else 0.

(** Modelled from the spec: the reserved colours [PIXEL_BLACK] and
    [PIXEL_WHITE] of [imageprocess/pixel.h], as RGB values. *)
Definition PIXEL_BLACK : Pixel.t := Pixel.mk 0 0 0.
Definition PIXEL_WHITE : Pixel.t := Pixel.mk 255 255 255.

(** Modelled from the spec: [pixel_from_value] of [imageprocess/pixel],
    the construction of a pixel from a packed colour value, one byte per
    channel in the order of the [#rrggbb] notation. *)
Definition pixel_from_value (value : Z) : Pixel.t :=
  {| Pixel.r := Z.land (Z.shiftr value 16) 255;
     Pixel.g := Z.land (Z.shiftr value 8) 255;
     Pixel.b := Z.land value 255 |}.

(** Modelled from the spec: [compare_pixel] of [imageprocess/pixel],
    the equality test on pixels; zero exactly when the channels agree. *)
Definition compare_pixel (a b : Pixel.t) : Z :=
  if negb (Pixel.r a =? Pixel.r b) then Pixel.r a - Pixel.r b
  else if negb (Pixel.g a =? Pixel.g b) then Pixel.g a - Pixel.g b
  else Pixel.b a - Pixel.b b.

Definition parse_rectangle := parse_rectangle count_pixels.
Definition parse_wipe := parse_wipe count_pixels.
Definition parse_color := parse_color PIXEL_BLACK PIXEL_WHITE pixel_from_value.
Definition print_color := print_color PIXEL_BLACK PIXEL_WHITE compare_pixel.
End SpecModel.

(** ** Vocabulary of the statements *)

(** The character [c] occurs somewhere in [s]. *)
Definition occurs (c : ascii) (s : string) : Prop :=
  In c (list_ascii_of_string s).

(** A Rocq string that is the content of a C string: the character of
    code 0 ends a C string and cannot be part of it. *)
Definition c_string (s : string) : Prop := ~ occurs zero s.

(** Equal up to the case of the letters. *)
Definition equal_ignoring_case (s1 s2 : string) : Prop :=
  List.map tolower (list_ascii_of_string s1)
  = List.map tolower (list_ascii_of_string s2).

Section Values.
Context {T : Type} (conv : string -> conv_result T).

(** Nothing can be scanned at the head of [s]. *)
Definition no_value (s : string) : Prop :=
  forall a rest, conv s <> Converted a rest.

(** Two values separated by a comma. *)
Definition two_values (s : string) (a b : T) : Prop :=
  exists s1 rest,
    conv s = Converted a (String "," s1) /\ conv s1 = Converted b rest.

(** One value, and no second one: no comma follows, or no value follows
    the comma. *)
Definition one_value (s : string) (a : T) : Prop :=
  exists rest,
    conv s = Converted a rest
    /\ forall s1, rest = String "," s1 -> no_value s1.
End Values.

Definition select_all (m : MultiIndex.t) : Prop :=
  MultiIndex.count m = -1 /\ MultiIndex.indexes m = None.

Definition select_none (m : MultiIndex.t) : Prop :=
  MultiIndex.count m = 0 /\ MultiIndex.indexes m = None.

Definition unset_size : RectangleSize.t :=
  {| RectangleSize.width := -1; RectangleSize.height := -1 |}.

(** The wipes of the list: the first [count] cells of the array. *)
Definition wipe_list (w : Wipes.t) : list Rectangle.t :=
  take (Wipes.count w) (Wipes.areas w).

(** A sequence of [parse_wipe] calls, each given by its option name and its
    text, on the same list. *)
Definition parse_wipes (count_pixels : Rectangle.t -> Z)
    (calls : list (string * string)) (w : Wipes.t) : Wipes.t :=
  fold_left (fun w call => snd (fst (parse_wipe count_pixels (fst call) (snd call) w)))
            calls w.

(** A printed value without its opening bracket. *)
Definition after_bracket (s : string) : string :=
  match s with
  | String _ s' => s'
  | EmptyString => EmptyString
  end.

(** The values that the parsers accept: [int32_t] fields that pass the
    validation of the domain. *)
Definition valid_rectangle (count_pixels : Rectangle.t -> Z)
    (rect : Rectangle.t) : Prop :=
  in_int32 (Point.x (Rectangle.vertex0 rect))
  /\ in_int32 (Point.y (Rectangle.vertex0 rect))
  /\ in_int32 (Point.x (Rectangle.vertex1 rect))
  /\ in_int32 (Point.y (Rectangle.vertex1 rect))
  /\ 0 < count_pixels rect.

Definition valid_size (size : RectangleSize.t) : Prop :=
  in_int32 (RectangleSize.width size) /\ in_int32 (RectangleSize.height size)
  /\ 0 <= RectangleSize.width size /\ 0 <= RectangleSize.height size.

Definition valid_delta (delta : Delta.t) : Prop :=
  in_int32 (Delta.horizontal delta) /\ in_int32 (Delta.vertical delta).

Definition valid_border (border : Border.t) : Prop :=
  in_int32 (Border.left border) /\ in_int32 (Border.top border)
  /\ in_int32 (Border.right border) /\ in_int32 (Border.bottom border)
  /\ 0 <= Border.left border /\ 0 <= Border.top border
  /\ 0 <= Border.right border /\ 0 <= Border.bottom border.

(** Nothing but white space. *)
Fixpoint all_space (s : string) : bool :=
  match s with
  | String c s' => isspace c && all_space s'
  | EmptyString => true
  end.

(** The first character of [s], if any, is not [c]. *)
Definition not_headed_by (c : ascii) (s : string) : Prop :=
  match s with
  | String c' _ => c' <> c
  | EmptyString => True
  end.


(** * Properties *)

(** ** Decimal output read back by [%d] *)

Lemma digit_char_isdigit (d : Z) :
  0 <= d <= 9 -> isdigit (digit_char d) = true /\ digit_value (digit_char d) = d.
Proof.
  intros Hd.
  assert (d = 0 \/ d = 1 \/ d = 2 \/ d = 3 \/ d = 4 \/ d = 5 \/ d = 6
          \/ d = 7 \/ d = 8 \/ d = 9) as Hcases by lia.
  repeat (destruct Hcases as [-> | Hcases]; [split; reflexivity |]).
  subst d; split; reflexivity.
Qed.

Lemma scan_digits_stop (a : Z) (s : string) :
  starts_with_digit s = false -> scan_digits a s = (a, s).
Proof.
  destruct s as [| c s]; simpl; [reflexivity |].
  intros ->; reflexivity.
Qed.

Lemma decimal_digits_app (fuel : nat) :
  forall n acc rest,
    (decimal_digits fuel n acc ++ rest)%string
    = decimal_digits fuel n (acc ++ rest)%string.
Proof.
  induction fuel as [| fuel IH]; intros n acc rest; simpl; [reflexivity |].
  destruct (n <? 10); [reflexivity |].
  rewrite IH; reflexivity.
Qed.

Lemma decimal_digits_head (fuel : nat) :
  forall n acc,
    0 <= n ->
    (0 < fuel)%nat \/ starts_with_digit acc = true ->
    starts_with_digit (decimal_digits fuel n acc) = true.
Proof.
  induction fuel as [| fuel IH]; intros n acc Hn Hstart.
  - destruct Hstart as [Hfuel | Hacc]; [lia | exact Hacc].
  - assert (isdigit (digit_char (n mod 10)) = true) as Hdigit
        by (apply digit_char_isdigit; pose proof (Z.mod_pos_bound n 10); lia).
    simpl. destruct (n <? 10); [exact Hdigit |].
    apply IH; [apply Z.div_pos; lia | right; exact Hdigit].
Qed.

(** Reading the digits written for [n] continues the accumulation [a] by
    the digits of [n]: [a] is shifted by their number. *)
Lemma scan_decimal_digits (fuel : nat) :
  forall n acc a,
    0 <= n < 10 ^ Z.of_nat fuel ->
    exists k : Z,
      0 <= k /\
      scan_digits a (decimal_digits fuel n acc)
      = scan_digits (a * 10 ^ k + n) acc.
Proof.
  induction fuel as [| fuel IH]; intros n acc a Hn.
  - exists 0. simpl in *. assert (n = 0) as -> by lia.
    split; [lia | f_equal; lia].
  - rewrite Nat2Z.inj_succ, Z.pow_succ_r in Hn by lia.
    pose proof (Z.mod_pos_bound n 10 ltac:(lia)) as Hmod.
    destruct (digit_char_isdigit (n mod 10) ltac:(lia)) as [Hdig Hval].
    simpl. destruct (n <? 10) eqn:Hlt.
    + apply Z.ltb_lt in Hlt. exists 1.
      rewrite Z.mod_small in * by lia.
      simpl. rewrite Hdig, Hval.
      split; [lia | f_equal; lia].
    + apply Z.ltb_ge in Hlt.
      destruct (IH (n / 10) (String (digit_char (n mod 10)) acc) a)
        as (k & Hk & Hscan).
      { split; [apply Z.div_pos; lia | apply Z.div_lt_upper_bound; lia]. }
      exists (k + 1). rewrite Hscan. simpl. rewrite Hdig, Hval.
      rewrite Z.pow_add_r by lia.
      pose proof (Z.div_mod n 10 ltac:(lia)) as Hdm.
      change (10 ^ 1) with 10.
      split; [lia | f_equal; lia].
Qed.

Lemma scan_print_digits (n : Z) (rest : string) :
  0 <= n < 10 ^ 20 ->
  starts_with_digit rest = false ->
  scan_digits 0 (decimal_digits 20 n rest) = (n, rest).
Proof.
  intros Hn Hrest.
  destruct (scan_decimal_digits 20 n rest 0 Hn) as (k & _ & ->).
  rewrite scan_digits_stop by exact Hrest.
  reflexivity.
Qed.

Lemma to_int32_fits (n : Z) : in_int32 n -> to_int32 (strtol_saturate n) = n.
Proof.
  unfold in_int32, INT32_MIN, INT32_MAX, to_int32, strtol_saturate,
    LONG_MIN, LONG_MAX.
  intros Hn.
  rewrite Z.min_r, Z.max_r by lia.
  rewrite Z.mod_small by lia. lia.
Qed.

Lemma to_int32_range (z : Z) : in_int32 (to_int32 z).
Proof.
  unfold in_int32, INT32_MIN, INT32_MAX, to_int32.
  pose proof (Z.mod_pos_bound (z + 2 ^ 31) (2 ^ 32) ltac:(lia)). lia.
Qed.

Lemma isdigit_not_special (c : ascii) :
  isdigit c = true ->
  isspace c = false /\ Ascii.eqb c "-" = false /\ Ascii.eqb c "+" = false.
Proof.
  intros Hc. repeat split.
  - unfold isdigit in Hc. unfold isspace. lia.
  - destruct (Ascii.eqb_spec c "-") as [-> |]; [discriminate Hc | reflexivity].
  - destruct (Ascii.eqb_spec c "+") as [-> |]; [discriminate Hc | reflexivity].
Qed.

Lemma conv_d_unsigned (s : string) :
  starts_with_digit s = true ->
  conv_d s
  = let '(m, rest) := scan_digits 0 s in
    Converted (to_int32 (strtol_saturate m)) rest.
Proof.
  destruct s as [| c s]; [discriminate |]. intros Hc.
  destruct (isdigit_not_special c Hc) as (Hsp & Hminus & Hplus).
  unfold conv_d. cbn [skip_space]. rewrite Hsp, Hminus, Hplus.
  cbn [starts_with_digit] in *. rewrite Hc. reflexivity.
Qed.

Lemma conv_d_minus (s : string) :
  starts_with_digit s = true ->
  conv_d (String "-" s)
  = let '(m, rest) := scan_digits 0 s in
    Converted (to_int32 (strtol_saturate (- m))) rest.
Proof.
  intros Hs. unfold conv_d.
  change (skip_space (String "-" s)) with (String "-" s). cbv beta iota.
  change (Ascii.eqb "-" "-") with true. cbv beta iota.
  rewrite Hs. reflexivity.
Qed.

Lemma print_d_app (n : Z) (rest : string) :
  (print_d n ++ rest)%string
  = if n <? 0 then String "-" (decimal_digits 20 (- n) rest)
    else decimal_digits 20 n rest.
Proof.
  unfold print_d. destruct (n <? 0); cbn [String.append];
    rewrite decimal_digits_app; reflexivity.
Qed.

(** What [printf] writes for an [int32_t], followed by anything that is
    not a digit, is read back by [%d] as the same number. *)
Lemma conv_d_print_d (n : Z) (rest : string) :
  in_int32 n ->
  starts_with_digit rest = false ->
  conv_d (print_d n ++ rest) = Converted n rest.
Proof.
  intros Hn Hrest. pose proof Hn as Hfit. apply to_int32_fits in Hfit.
  unfold in_int32, INT32_MIN, INT32_MAX in Hn.
  rewrite print_d_app. destruct (n <? 0) eqn:Hneg.
  - apply Z.ltb_lt in Hneg.
    rewrite conv_d_minus by (apply decimal_digits_head; lia).
    rewrite scan_print_digits by (exact Hrest || lia).
    rewrite Z.opp_involutive, Hfit. reflexivity.
  - apply Z.ltb_ge in Hneg.
    rewrite conv_d_unsigned by (apply decimal_digits_head; lia).
    rewrite scan_print_digits by (exact Hrest || lia).
    rewrite Hfit. reflexivity.
Qed.

(** ** The two formats, by cases on the conversions *)

Section SscanfFacts.
Context {T : Type} (conv : string -> conv_result T).

(** ["%d,%d"]: the scan stops after one value when no comma follows it or
    when what follows the comma does not convert. *)
Lemma sscanf_pair_cases (s : string) :
  sscanf conv s fmt_pair
  = match conv s with
    | Converted a (String c s1) =>
        if Ascii.eqb c "," then
          match conv s1 with
          | Converted b _ => (2, [a; b])
          | _ => (1, [a])
          end
        else (1, [a])
    | Converted a EmptyString => (1, [a])
    | MatchFailure => (0, [])
    | InputFailure => (EOF, [])
    end.
Proof.
  unfold sscanf, fmt_pair. cbn [sscanf_from].
  destruct (conv s) as [a [| c s1] | |]; reflexivity.
Qed.

Lemma sscanf_quad_four (s : string) (a b c d : T) :
  four_values conv s a b c d -> sscanf conv s fmt_quad = (4, [a; b; c; d]).
Proof.
  intros (s1 & s2 & s3 & rest & H1 & H2 & H3 & H4).
  unfold sscanf, fmt_quad. cbn [sscanf_from].
  rewrite H1. cbn. rewrite H2. cbn. rewrite H3. cbn. rewrite H4.
  reflexivity.
Qed.

Lemma sscanf_quad_inv (s : string) (vals : list T) :
  sscanf conv s fmt_quad = (4, vals) ->
  exists a b c d, vals = [a; b; c; d] /\ four_values conv s a b c d.
Proof.
  unfold sscanf, fmt_quad, four_values. cbn [sscanf_from].
  destruct (conv s) as [a [| c1 s1] | |] eqn:H1; cbn; try discriminate.
  destruct (Ascii.eqb_spec c1 ","); [subst c1 | discriminate].
  destruct (conv s1) as [b [| c2 s2] | |] eqn:H2; cbn; try discriminate.
  destruct (Ascii.eqb_spec c2 ","); [subst c2 | discriminate].
  destruct (conv s2) as [c [| c3 s3] | |] eqn:H3; cbn; try discriminate.
  destruct (Ascii.eqb_spec c3 ","); [subst c3 | discriminate].
  destruct (conv s3) as [d rest | |] eqn:H4; cbn; try discriminate.
  intros [= <-]. exists a, b, c, d. split; [reflexivity |].
  exists s1, s2, s3, rest. auto.
Qed.
End SscanfFacts.

(** ** [options_init] *)

(** C1. [options_init] is a total function of no input (whatever the record
    held before is overwritten) and its result has: the sheet selection
    "select all" (count -1, null indexes); every other multi-index "select
    none" (count 0, null indexes); [start_sheet] 1, [end_sheet] -1, both
    counts 1, [start_input] and [start_output] -1; the five sizes at the
    unset value (-1, -1); both shifts (0, 0). *)
Theorem options_init_defaults (LAYOUT_SINGLE : Z) (o : Options.t) :
  let o' := options_init LAYOUT_SINGLE o in
  (forall o2, options_init LAYOUT_SINGLE o2 = o')
  /\ select_all (Options.sheet_multi_index o')
  /\ (select_none (Options.exclude_multi_index o')
      /\ select_none (Options.ignore_multi_index o')
      /\ select_none (Options.insert_blank o')
      /\ select_none (Options.replace_blank o')
      /\ select_none (Options.no_blackfilter_multi_index o')
      /\ select_none (Options.no_noisefilter_multi_index o')
      /\ select_none (Options.no_blurfilter_multi_index o')
      /\ select_none (Options.no_grayfilter_multi_index o')
      /\ select_none (Options.no_mask_scan_multi_index o')
      /\ select_none (Options.no_mask_center_multi_index o')
      /\ select_none (Options.no_deskew_multi_index o')
      /\ select_none (Options.no_wipe_multi_index o')
      /\ select_none (Options.no_border_multi_index o')
      /\ select_none (Options.no_border_scan_multi_index o')
      /\ select_none (Options.no_border_align_multi_index o'))
  /\ Options.start_sheet o' = 1
  /\ Options.end_sheet o' = -1
  /\ Options.input_count o' = 1
  /\ Options.output_count o' = 1
  /\ Options.start_input o' = -1
  /\ Options.start_output o' = -1
  /\ (Options.sheet_size o' = unset_size
      /\ Options.page_size o' = unset_size
      /\ Options.post_page_size o' = unset_size
      /\ Options.stretch_size o' = unset_size
      /\ Options.post_stretch_size o' = unset_size)
  /\ Options.pre_shift o' = Delta.mk 0 0
  /\ Options.post_shift o' = Delta.mk 0 0.
Proof.
  cbv zeta. unfold select_all, select_none, unset_size.
  repeat match goal with |- _ /\ _ => split end;
    solve [reflexivity | intros; reflexivity].
Qed.

(** ** [parse_direction] *)

Lemma strchr_occurs (c : ascii) (s : string) :
  c <> zero -> non_null (strchr s c) = true <-> occurs c s.
Proof.
  intros Hc. unfold occurs.
  induction s as [| c' s IH]; cbn [strchr list_ascii_of_string].
  - destruct (Ascii.eqb_spec c zero); [contradiction |].
    cbn. split; [discriminate | tauto].
  - destruct (Ascii.eqb_spec c' c) as [-> | Hne].
    + cbn. split; [auto | reflexivity].
    + rewrite IH. cbn. split; [auto | intros [? | ?]; [contradiction | assumption]].
Qed.

Lemma tolower_zero (c : ascii) : tolower c = 0 -> c = zero.
Proof.
  unfold tolower, char_code. intros H.
  assert (N_of_ascii c = 0%N) as Hn
      by (destruct ((65 <=? _) && _) eqn:E in H; lia).
  rewrite <- (ascii_N_embedding c), Hn. reflexivity.
Qed.

Lemma strcasecmp_equal (s1 : string) :
  forall s2,
    c_string s1 -> c_string s2 ->
    strcasecmp s1 s2 = 0 <-> equal_ignoring_case s1 s2.
Proof.
  unfold c_string, occurs, equal_ignoring_case.
  induction s1 as [| c1 s1 IH]; intros [| c2 s2] H1 H2;
    cbn [strcasecmp list_ascii_of_string List.map In] in *.
  - tauto.
  - split; [| discriminate].
    intros H. exfalso. apply H2. left. apply tolower_zero. lia.
  - split; [| discriminate].
    intros H. exfalso. apply H1. left. apply tolower_zero. lia.
  - destruct (Z.eqb_spec (tolower c1) (tolower c2)) as [Heq | Hne].
    + rewrite IH by tauto. rewrite Heq.
      split; [intros ->; reflexivity | intros [= ?]; assumption].
    + split; [lia | intros [= ? _]; contradiction].
Qed.

(** C5. For a C string [str]: the horizontal flag is set exactly when [h]
    or [H] occurs in [str], the vertical flag exactly when [v] or [V]
    occurs, and the call succeeds exactly when a flag is set or [str] is
    "none" up to case; "h" gives (true, false), "none" succeeds with
    (false, false), "xyz" fails. *)
Theorem parse_direction_rule (str : string) (d : Direction.t) :
  c_string str ->
  let ok := fst (parse_direction str d) in
  let d' := snd (parse_direction str d) in
  (Direction.horizontal d' = true <-> occurs "h" str \/ occurs "H" str)
  /\ (Direction.vertical d' = true <-> occurs "v" str \/ occurs "V" str)
  /\ (ok = true <->
      Direction.horizontal d' = true \/ Direction.vertical d' = true
      \/ equal_ignoring_case str "none")
  /\ parse_direction "h" d = (true, Direction.mk true false)
  /\ parse_direction "none" d = (true, Direction.mk false false)
  /\ fst (parse_direction "xyz" d) = false.
Proof.
  intros Hstr. cbv zeta. unfold parse_direction. cbn [fst snd Direction.horizontal Direction.vertical].
  assert (c_string "none") as Hnone
      by (unfold c_string, occurs; cbn; intros [H | [H | [H | [H | []]]]]; discriminate H).
  repeat match goal with |- _ /\ _ => split end; try reflexivity.
  - rewrite orb_true_iff, !strchr_occurs by discriminate. reflexivity.
  - rewrite orb_true_iff, !strchr_occurs by discriminate. reflexivity.
  - rewrite !orb_true_iff, Z.eqb_eq, strcasecmp_equal by assumption. tauto.
Qed.

Lemma parse_direction_rule_witness :
  let r := parse_direction "Vertical" (Direction.mk false false) in
  (Direction.horizontal (snd r) = true <-> occurs "h" "Vertical" \/ occurs "H" "Vertical")
  /\ fst r = true.
Proof.
  assert (c_string "Vertical") as Hc.
  { unfold c_string, occurs. cbn.
    intros H. repeat (destruct H as [H | H]; [discriminate H |]). exact H. }
  pose proof (parse_direction_rule "Vertical" (Direction.mk false false) Hc) as H.
  cbv zeta in *. split; [apply H | reflexivity].
Defined.

(** C10. A failing [parse_direction] has written both flags, as [false]:
    the output is the one of a (successful) parse of "none", and no part
    of it is what the slot held before. *)
Theorem parse_direction_failure_state (str : string) (d : Direction.t) :
  fst (parse_direction str d) = false ->
  snd (parse_direction str d) = Direction.mk false false
  /\ parse_direction "none" d = (true, snd (parse_direction str d))
  /\ forall d2, snd (parse_direction str d2) = snd (parse_direction str d).
Proof.
  unfold parse_direction. cbn [fst snd Direction.horizontal Direction.vertical].
  intros H. apply orb_false_iff in H as [H _].
  apply orb_false_iff in H as [-> ->].
  repeat split; reflexivity.
Qed.

Lemma parse_direction_failure_state_witness :
  snd (parse_direction "xyz" (Direction.mk true true)) = Direction.mk false false.
Proof.
  apply (parse_direction_failure_state "xyz" (Direction.mk true true)).
  reflexivity.
Defined.

(** ** The symmetric pair *)

Section SymmetricFacts.
Context {T : Type} (conv : string -> conv_result T).

(** The three outcomes of ["%d,%d"] (or ["%f,%f"]) in the vocabulary of
    the statements. *)
Lemma sscanf_pair_none (s : string) :
  no_value conv s ->
  fst (sscanf conv s fmt_pair) <= 0 /\ snd (sscanf conv s fmt_pair) = [].
Proof.
  intros Hno. rewrite sscanf_pair_cases.
  destruct (conv s) as [a rest | |] eqn:Hs.
  - exfalso. exact (Hno a rest Hs).
  - cbn. split; [lia | reflexivity].
  - cbn. unfold EOF. split; [lia | reflexivity].
Qed.

Lemma sscanf_pair_one (s : string) (a : T) :
  one_value conv s a -> sscanf conv s fmt_pair = (1, [a]).
Proof.
  intros (rest & Hs & Hrest). rewrite sscanf_pair_cases, Hs.
  destruct rest as [| c s1]; [reflexivity |].
  destruct (Ascii.eqb_spec c ","); [subst c | reflexivity].
  destruct (conv s1) as [b rest' | |] eqn:Hs1; try reflexivity.
  exfalso. exact (Hrest s1 eq_refl b rest' Hs1).
Qed.

Lemma sscanf_pair_two (s : string) (a b : T) :
  two_values conv s a b -> sscanf conv s fmt_pair = (2, [a; b]).
Proof.
  intros (s1 & rest & Hs & Hs1). rewrite sscanf_pair_cases, Hs.
  cbn. rewrite Hs1. reflexivity.
Qed.

(** Every input is in one of the three cases. *)
Lemma values_cases (s : string) :
  no_value conv s
  \/ (exists a, one_value conv s a)
  \/ (exists a b, two_values conv s a b).
Proof.
  destruct (conv s) as [a rest | |] eqn:Hs.
  - right. destruct rest as [| c s1].
    + left. exists a, EmptyString. split; [exact Hs | discriminate].
    + destruct (Ascii.eqb_spec c ",") as [-> | Hc].
      * destruct (conv s1) as [b rest' | |] eqn:Hs1.
        -- right. exists a, b, s1, rest'. auto.
        -- left. exists a, (String "," s1). split; [exact Hs |].
           intros ? [= <-] ? ?. congruence.
        -- left. exists a, (String "," s1). split; [exact Hs |].
           intros ? [= <-] ? ?. congruence.
      * left. exists a, (String c s1). split; [exact Hs |].
        intros ? [= ? ?]. contradiction.
  - left. intros ? ?. congruence.
  - left. intros ? ?. congruence.
Qed.
End SymmetricFacts.

(** C6. Both pair parsers, on every input: one value and no second one is
    stored in both slots and the parse succeeds; two values separated by a
    comma are stored in order and the parse succeeds; when nothing can be
    scanned the parse fails (and the slots keep their contents).  Every
    input is in one of the three cases. *)
Theorem parse_symmetric_cases
    (float : Type) (conv_f : string -> conv_result float)
    (str : string) (i1 i2 : Z) (f1 f2 : float) :
  (forall a, one_value conv_d str a ->
             parse_symmetric_integers str i1 i2 = (true, (a, a)))
  /\ (forall a b, two_values conv_d str a b ->
                  parse_symmetric_integers str i1 i2 = (true, (a, b)))
  /\ (no_value conv_d str ->
      parse_symmetric_integers str i1 i2 = (false, (i1, i2)))
  /\ (forall a, one_value conv_f str a ->
                parse_symmetric_floats float conv_f str f1 f2 = (true, (a, a)))
  /\ (forall a b, two_values conv_f str a b ->
                  parse_symmetric_floats float conv_f str f1 f2 = (true, (a, b)))
  /\ (no_value conv_f str ->
      parse_symmetric_floats float conv_f str f1 f2 = (false, (f1, f2)))
  /\ (no_value conv_d str \/ (exists a, one_value conv_d str a)
      \/ (exists a b, two_values conv_d str a b))
  /\ (no_value conv_f str \/ (exists a, one_value conv_f str a)
      \/ (exists a b, two_values conv_f str a b)).
Proof.
  unfold parse_symmetric_integers, parse_symmetric_floats.
  repeat match goal with |- _ /\ _ => split end;
    try apply values_cases.
  - intros a H. rewrite (sscanf_pair_one _ _ _ H). reflexivity.
  - intros a b H. rewrite (sscanf_pair_two _ _ _ _ H). reflexivity.
  - intros H. destruct (sscanf_pair_none _ _ H) as [Hn Hv].
    destruct (sscanf conv_d str fmt_pair) as [n vals]. cbn in Hn, Hv. subst vals.
    destruct (Z.eqb_spec n 1); [lia |]. destruct (Z.eqb_spec n 2); [lia |].
    reflexivity.
  - intros a H. rewrite (sscanf_pair_one _ _ _ H). reflexivity.
  - intros a b H. rewrite (sscanf_pair_two _ _ _ _ H). reflexivity.
  - intros H. destruct (sscanf_pair_none _ _ H) as [Hn Hv].
    destruct (sscanf conv_f str fmt_pair) as [n vals]. cbn in Hn, Hv. subst vals.
    destruct (Z.eqb_spec n 1); [lia |]. destruct (Z.eqb_spec n 2); [lia |].
    reflexivity.
Qed.

(** The cases of C6 on inputs: "7" and "7,x" hold one value, "7,-3" two,
    "x" none; the float conversion is instantiated by [%d]. *)
Lemma parse_symmetric_cases_witness :
  parse_symmetric_integers "7" 0 0 = (true, (7, 7))
  /\ parse_symmetric_integers "7,x" 0 0 = (true, (7, 7))
  /\ parse_symmetric_integers "7,-3" 0 0 = (true, (7, -3))
  /\ parse_symmetric_integers "x" 1 2 = (false, (1, 2))
  /\ parse_symmetric_floats Z conv_d " 7" 0 0 = (true, (7, 7)).
Proof.
  pose proof (parse_symmetric_cases Z conv_d "7" 0 0 0 0) as (H1 & _).
  pose proof (parse_symmetric_cases Z conv_d "7,x" 0 0 0 0) as (H1x & _).
  pose proof (parse_symmetric_cases Z conv_d "7,-3" 0 0 0 0) as (_ & H2 & _).
  pose proof (parse_symmetric_cases Z conv_d "x" 1 2 0 0) as (_ & _ & H0 & _).
  pose proof (parse_symmetric_cases Z conv_d " 7" 0 0 0 0) as (_ & _ & _ & Hf & _).
  repeat match goal with |- _ /\ _ => split end.
  - apply H1. exists EmptyString. split; [reflexivity | discriminate].
  - apply H1x. exists ",x". split; [reflexivity |].
    intros s1 [= <-] a rest. discriminate.
  - apply H2. exists "-3", EmptyString. split; reflexivity.
  - apply H0. intros a rest. discriminate.
  - apply Hf. exists EmptyString. split; [reflexivity | discriminate].
Defined.

(** ** [parse_scan_step] *)

(** C9. [parse_scan_step] succeeds exactly when [parse_delta], that is the
    symmetric integer pair, succeeds with two strictly positive
    components, and it leaves in the slot what [parse_delta] does: "5,5"
    succeeds, "0,5" and "-1,-1" fail. *)
Theorem parse_scan_step_positive (str : string) (delta : Delta.t) :
  (fst (parse_scan_step str delta) = true <->
   exists d, parse_delta str delta = (true, d)
             /\ 0 < Delta.horizontal d /\ 0 < Delta.vertical d)
  /\ parse_delta str delta
     = (let '(ok, (h, v)) :=
          parse_symmetric_integers str (Delta.horizontal delta)
                                   (Delta.vertical delta) in
        (ok, Delta.mk h v))
  /\ snd (parse_scan_step str delta) = snd (parse_delta str delta)
  /\ parse_scan_step "5,5" delta = (true, Delta.mk 5 5)
  /\ fst (parse_scan_step "0,5" delta) = false
  /\ fst (parse_scan_step "-1,-1" delta) = false.
Proof.
  repeat match goal with |- _ /\ _ => split end; try reflexivity.
  - unfold parse_scan_step.
    destruct (parse_delta str delta) as [[|] d]; cbn.
    + rewrite andb_true_iff, !Z.ltb_lt. split.
      * intros H. exists d. auto.
      * intros (d0 & [= <-] & H). exact H.
    + split; [discriminate | intros (d0 & [=] & _)].
  - unfold parse_scan_step.
    destruct (parse_delta str delta) as [[|] d]; reflexivity.
Qed.

(** The equivalence on "12": [parse_delta] gives (12, 12), both positive. *)
Lemma parse_scan_step_positive_witness :
  parse_delta "12" (Delta.mk 0 0) = (true, Delta.mk 12 12)
  /\ fst (parse_scan_step "12" (Delta.mk 0 0)) = true.
Proof.
  split; [reflexivity |].
  apply (parse_scan_step_positive "12" (Delta.mk 0 0)).
  exists (Delta.mk 12 12). cbn. split; [reflexivity | lia].
Defined.

(** ** [parse_rectangle] *)

Lemma parse_rectangle_four (count_pixels : Rectangle.t -> Z)
    (str : string) (rect : Rectangle.t) (a b c d : Z) :
  four_values conv_d str a b c d ->
  parse_rectangle count_pixels str rect
  = (0 <? count_pixels (Rectangle.mk (Point.mk a b) (Point.mk c d)),
     Rectangle.mk (Point.mk a b) (Point.mk c d)).
Proof.
  intros H. unfold parse_rectangle.
  rewrite (sscanf_quad_four _ _ _ _ _ _ H). reflexivity.
Qed.

(** C2. On every input, [parse_rectangle] succeeds exactly when the input
    holds four integers separated by commas and the rectangle of the two
    vertices they form has a strictly positive pixel count; the vertices
    are then stored.  With the pixel count of the spec, "0,0,0,0" fails
    and "0,0,10,10" succeeds with the vertices (0,0) and (10,10). *)
Theorem parse_rectangle_valid (count_pixels : Rectangle.t -> Z)
    (str : string) (rect : Rectangle.t) :
  (fst (parse_rectangle count_pixels str rect) = true <->
   exists a b c d,
     four_values conv_d str a b c d
     /\ 0 < count_pixels (Rectangle.mk (Point.mk a b) (Point.mk c d)))
  /\ (forall a b c d,
         four_values conv_d str a b c d ->
         snd (parse_rectangle count_pixels str rect)
         = Rectangle.mk (Point.mk a b) (Point.mk c d))
  /\ fst (SpecModel.parse_rectangle "0,0,0,0" rect) = false
  /\ SpecModel.parse_rectangle "0,0,10,10" rect
     = (true, Rectangle.mk (Point.mk 0 0) (Point.mk 10 10)).
Proof.
  repeat match goal with |- _ /\ _ => split end; try reflexivity.
  - split.
    + unfold parse_rectangle.
      destruct (sscanf conv_d str fmt_quad) as [n vals] eqn:Hscan.
      destruct (Z.eqb_spec n 4) as [-> | Hn]; cbn; [| discriminate].
      destruct (sscanf_quad_inv _ _ _ Hscan) as (a & b & c & d & -> & Hfour).
      cbn. rewrite Z.ltb_lt. intros H. exists a, b, c, d. auto.
    + intros (a & b & c & d & Hfour & Hpos).
      rewrite (parse_rectangle_four _ _ _ _ _ _ _ Hfour). cbn.
      apply Z.ltb_lt. exact Hpos.
  - intros a b c d Hfour.
    rewrite (parse_rectangle_four _ _ _ _ _ _ _ Hfour). reflexivity.
Qed.

(** The equivalence on the text " 3,4,13,+24 and more": four integers, and
    a rectangle of 10 by 20 pixels. *)
Lemma parse_rectangle_valid_witness :
  let rect := Rectangle.mk (Point.mk 3 4) (Point.mk 13 24) in
  four_values conv_d " 3,4,13,+24 and more" 3 4 13 24
  /\ 0 < SpecModel.count_pixels rect
  /\ fst (SpecModel.parse_rectangle " 3,4,13,+24 and more" rect) = true
  /\ snd (SpecModel.parse_rectangle " 3,4,13,+24 and more"
                                    (Rectangle.mk (Point.mk 0 0) (Point.mk 0 0)))
     = rect.
Proof.
  cbv zeta.
  assert (four_values conv_d " 3,4,13,+24 and more" 3 4 13 24) as Hfour.
  { exists "4,13,+24 and more", "13,+24 and more", "+24 and more", " and more".
    repeat split. }
  split; [exact Hfour | split; [reflexivity | split]].
  - apply (parse_rectangle_valid SpecModel.count_pixels).
    exists 3, 4, 13, 24. split; [exact Hfour | reflexivity].
  - apply (parse_rectangle_valid SpecModel.count_pixels). exact Hfour.
Defined.

(** ** [parse_wipe] *)

Lemma parse_wipe_full (count_pixels : Rectangle.t -> Z)
    (optname str : string) (w : Wipes.t) :
  (Wipes.capacity w <= Wipes.count w)%nat ->
  parse_wipe count_pixels optname str w
  = (false, w,
     (optname ++ ": maximum number of wipes ("
              ++ print_d (Z.of_nat (Wipes.capacity w))
              ++ ") exceeded, ignoring '" ++ str ++ "'")%string).
Proof.
  intros H. unfold parse_wipe.
  destruct (Nat.leb_spec (Wipes.capacity w) (Wipes.count w)); [reflexivity | lia].
Qed.

Lemma parse_wipe_room (count_pixels : Rectangle.t -> Z)
    (optname str : string) (w : Wipes.t) :
  (Wipes.count w < Wipes.capacity w)%nat ->
  exists slot,
    Wipes.areas w !! Wipes.count w = Some slot
    /\ parse_wipe count_pixels optname str w
       = let '(ok, rect) := parse_rectangle count_pixels str slot in
         let areas := <[Wipes.count w := rect]> (Wipes.areas w) in
         if ok then (true, Wipes.mk areas (S (Wipes.count w)), EmptyString)
         else (false, Wipes.mk areas (Wipes.count w),
               (optname ++ ": invalid wipe definition, ignoring '"
                        ++ str ++ "'")%string).
Proof.
  intros H. unfold parse_wipe.
  destruct (Nat.leb_spec (Wipes.capacity w) (Wipes.count w)); [lia |].
  destruct (lookup_lt_is_Some_2 (Wipes.areas w) (Wipes.count w) H) as [slot Hslot].
  exists slot. split; [exact Hslot |]. rewrite Hslot. cbn [from_option id].
  destruct (parse_rectangle count_pixels str slot) as [[|] rect]; reflexivity.
Qed.

Lemma parse_wipe_capacity (count_pixels : Rectangle.t -> Z)
    (optname str : string) (w : Wipes.t) :
  Wipes.capacity (snd (fst (parse_wipe count_pixels optname str w)))
  = Wipes.capacity w.
Proof.
  destruct (Nat.le_gt_cases (Wipes.capacity w) (Wipes.count w)) as [H | H].
  - rewrite parse_wipe_full by exact H. reflexivity.
  - destruct (parse_wipe_room count_pixels optname str w H) as (slot & _ & ->).
    destruct (parse_rectangle count_pixels str slot) as [[|] rect];
      cbn; unfold Wipes.capacity; cbn; apply length_insert.
Qed.

Lemma parse_wipe_count (count_pixels : Rectangle.t -> Z)
    (optname str : string) (w : Wipes.t) :
  (Wipes.count w <= Wipes.capacity w)%nat ->
  (Wipes.count (snd (fst (parse_wipe count_pixels optname str w)))
   <= Wipes.capacity w)%nat.
Proof.
  intros Hin.
  destruct (Nat.le_gt_cases (Wipes.capacity w) (Wipes.count w)) as [H | H].
  - rewrite parse_wipe_full by exact H. exact Hin.
  - destruct (parse_wipe_room count_pixels optname str w H) as (slot & _ & ->).
    destruct (parse_rectangle count_pixels str slot) as [[|] rect]; cbn; lia.
Qed.

Lemma parse_wipes_within (count_pixels : Rectangle.t -> Z)
    (calls : list (string * string)) :
  forall w,
    (Wipes.count w <= Wipes.capacity w)%nat ->
    Wipes.capacity (parse_wipes count_pixels calls w) = Wipes.capacity w
    /\ (Wipes.count (parse_wipes count_pixels calls w) <= Wipes.capacity w)%nat.
Proof.
  induction calls as [| [optname str] calls IH]; intros w Hw; cbn.
  - split; [reflexivity | exact Hw].
  - pose proof (parse_wipe_capacity count_pixels optname str w) as Hcap.
    pose proof (parse_wipe_count count_pixels optname str w Hw) as Hcount.
    destruct (IH (snd (fst (parse_wipe count_pixels optname str w))))
      as [IHcap IHcount]; [lia |].
    unfold parse_wipes in *. split; [congruence | lia].
Qed.

Lemma diagnostic_not_empty (optname tail : string) :
  (optname ++ String ":" tail)%string <> EmptyString.
Proof. destruct optname; discriminate. Qed.

(** C3, as the code has it.  A failing [parse_wipe] leaves [count] and the
    wipes below [count] as they were and writes a diagnostic.  At capacity
    it fails without parsing, the whole structure is unchanged, and the
    message names the option, the limit and the text.  When the text is
    not a valid rectangle the message names the option and the text, and
    the structure changes in the unused cell [areas[count]] only, which
    holds what the rectangle parser left there.  From a list within its
    capacity no sequence of calls takes [count] beyond the capacity. *)
Theorem parse_wipe_failure (count_pixels : Rectangle.t -> Z)
    (optname str : string) (w : Wipes.t) :
  let r := parse_wipe count_pixels optname str w in
  let w' := snd (fst r) in
  (fst (fst r) = false ->
   Wipes.count w' = Wipes.count w
   /\ wipe_list w' = wipe_list w
   /\ Wipes.capacity w' = Wipes.capacity w
   /\ snd r <> EmptyString)
  /\ ((Wipes.capacity w <= Wipes.count w)%nat ->
      r = (false, w,
           (optname ++ ": maximum number of wipes ("
                    ++ print_d (Z.of_nat (Wipes.capacity w))
                    ++ ") exceeded, ignoring '" ++ str ++ "'")%string))
  /\ (forall slot,
         (Wipes.count w < Wipes.capacity w)%nat ->
         Wipes.areas w !! Wipes.count w = Some slot ->
         fst (parse_rectangle count_pixels str slot) = false ->
         r = (false,
              Wipes.mk (<[Wipes.count w :=
                            snd (parse_rectangle count_pixels str slot)]>
                          (Wipes.areas w))
                       (Wipes.count w),
              (optname ++ ": invalid wipe definition, ignoring '"
                       ++ str ++ "'")%string))
  /\ ((Wipes.count w <= Wipes.capacity w)%nat ->
      forall calls,
        (Wipes.count (parse_wipes count_pixels calls w)
         <= Wipes.capacity (parse_wipes count_pixels calls w))%nat
        /\ Wipes.capacity (parse_wipes count_pixels calls w) = Wipes.capacity w).
Proof.
  cbv zeta. repeat match goal with |- _ /\ _ => split end.
  - destruct (Nat.le_gt_cases (Wipes.capacity w) (Wipes.count w)) as [H | H].
    + rewrite parse_wipe_full by exact H. cbn [fst snd]. intros _.
      repeat split. apply diagnostic_not_empty.
    + pose proof (parse_wipe_capacity count_pixels optname str w) as Hcap.
      destruct (parse_wipe_room count_pixels optname str w H) as (slot & _ & Heq).
      rewrite Heq in *. clear Heq.
      destruct (parse_rectangle count_pixels str slot) as [[|] rect];
        cbn [fst snd] in *; [discriminate |].
      intros _. repeat split.
      * unfold wipe_list. cbn [Wipes.count Wipes.areas].
        apply take_insert_ge. lia.
      * exact Hcap.
      * apply diagnostic_not_empty.
  - apply parse_wipe_full.
  - intros slot Hroom Hslot Hfail.
    destruct (parse_wipe_room count_pixels optname str w Hroom) as (slot' & Hslot' & ->).
    assert (slot' = slot) as -> by congruence.
    destruct (parse_rectangle count_pixels str slot) as [[|] rect];
      cbn [fst snd] in *; [discriminate | reflexivity].
  - intros Hw calls.
    destruct (parse_wipes_within count_pixels calls w Hw) as [Hcap Hcount].
    split; [lia | exact Hcap].
Qed.

(** The cases of the theorem on a list of capacity 2: a full list, a text
    that is not a rectangle, and three calls in a row. *)
Lemma parse_wipe_failure_witness :
  let r0 := Rectangle.mk (Point.mk 0 0) (Point.mk 0 0) in
  SpecModel.parse_wipe "wipe" "1,1,5,5" (Wipes.mk [r0; r0] 2)
  = (false, Wipes.mk [r0; r0] 2,
     "wipe: maximum number of wipes (2) exceeded, ignoring '1,1,5,5'")
  /\ wipe_list (snd (fst (SpecModel.parse_wipe "wipe" "1,2,3" (Wipes.mk [r0; r0] 1))))
     = [r0]
  /\ (Wipes.count
        (parse_wipes SpecModel.count_pixels
           [("wipe", "1,1,5,5"); ("wipe", "x"); ("wipe", "0,0,2,2");
            ("wipe", "0,0,3,3")]
           (Wipes.mk [r0; r0] 0)) <= 2)%nat.
Proof.
  cbv zeta. split; [| split].
  - apply (parse_wipe_failure SpecModel.count_pixels "wipe" "1,1,5,5"). cbn. lia.
  - apply (parse_wipe_failure SpecModel.count_pixels "wipe" "1,2,3"). reflexivity.
  - pose proof (parse_wipe_failure SpecModel.count_pixels "wipe" EmptyString
                  (Wipes.mk [Rectangle.mk (Point.mk 0 0) (Point.mk 0 0);
                             Rectangle.mk (Point.mk 0 0) (Point.mk 0 0)] 0))
      as (_ & _ & _ & Hseq).
    cbv zeta in Hseq.
    destruct (Hseq ltac:(cbn; lia)
                [("wipe", "1,1,5,5"); ("wipe", "x"); ("wipe", "0,0,2,2");
                 ("wipe", "0,0,3,3")]) as [Hcount Hcap].
    rewrite Hcap in Hcount. exact Hcount.
Defined.

(** C3, as it is written, fails: a text that is not a rectangle is parsed
    into the cell of the array after the last wipe, and the fields that
    were scanned stay there. *)
Lemma parse_wipe_failure_writes_slot :
  let r0 := Rectangle.mk (Point.mk 0 0) (Point.mk 0 0) in
  let w := Wipes.mk [r0; r0] 0 in
  fst (fst (SpecModel.parse_wipe "wipe" "1,2,3" w)) = false
  /\ snd (fst (SpecModel.parse_wipe "wipe" "1,2,3" w))
     = Wipes.mk [Rectangle.mk (Point.mk 1 2) (Point.mk 3 0); r0] 0
  /\ snd (fst (SpecModel.parse_wipe "wipe" "1,2,3" w)) <> w.
Proof.
  cbv zeta. split; [reflexivity | split; [reflexivity | discriminate]].
Qed.

(** ** Printing and parsing again *)

Lemma append_empty (s : string) : (s ++ EmptyString)%string = s.
Proof. induction s as [| c s IH]; cbn; [| rewrite IH]; reflexivity. Qed.

Lemma two_values_printed (a b : Z) (rest : string) :
  in_int32 a -> in_int32 b -> starts_with_digit rest = false ->
  two_values conv_d (print_d a ++ "," ++ print_d b ++ rest)%string a b.
Proof.
  intros Ha Hb Hrest. exists (print_d b ++ rest)%string, rest. split.
  - apply (conv_d_print_d a (String "," (print_d b ++ rest))); [exact Ha | reflexivity].
  - apply conv_d_print_d; assumption.
Qed.

Lemma four_values_printed (a b c d : Z) (rest : string) :
  in_int32 a -> in_int32 b -> in_int32 c -> in_int32 d ->
  starts_with_digit rest = false ->
  four_values conv_d
    (print_d a ++ "," ++ print_d b ++ "," ++ print_d c ++ ","
             ++ print_d d ++ rest)%string a b c d.
Proof.
  intros Ha Hb Hc Hd Hrest.
  exists (print_d b ++ "," ++ print_d c ++ "," ++ print_d d ++ rest)%string,
         (print_d c ++ "," ++ print_d d ++ rest)%string,
         (print_d d ++ rest)%string, rest.
  repeat split.
  - apply (conv_d_print_d a (String "," _)); [exact Ha | reflexivity].
  - apply (conv_d_print_d b (String "," _)); [exact Hb | reflexivity].
  - apply (conv_d_print_d c (String "," _)); [exact Hc | reflexivity].
  - apply conv_d_print_d; assumption.
Qed.

Lemma one_value_printed (a : Z) :
  in_int32 a -> one_value conv_d (print_d a) a.
Proof.
  intros Ha. exists EmptyString. split; [| discriminate].
  rewrite <- (append_empty (print_d a)) at 1.
  apply conv_d_print_d; [exact Ha | reflexivity].
Qed.

(** Nothing is scanned from a text that starts with a bracket. *)
Lemma sscanf_bracket (s : string) (fmt : list directive) :
  sscanf conv_d (String "[" s) (Conv :: fmt) = (0, []).
Proof. reflexivity. Qed.

(** C4, as the code has it.  The printers write a value between brackets,
    ["[a,b] "], and every parser rejects a text that starts with a
    bracket; the printed text without its opening bracket is parsed back
    to the value that was printed, for every valid rectangle, size, delta
    and border.  A size or delta given by one number [a] is the pair
    [(a, a)]. *)
Theorem print_parse_inside_brackets (count_pixels : Rectangle.t -> Z) :
  (forall rect old,
      valid_rectangle count_pixels rect ->
      parse_rectangle count_pixels (after_bracket (print_rectangle rect)) old
      = (true, rect))
  /\ (forall size old,
         valid_size size ->
         parse_rectangle_size (after_bracket (print_rectangle_size size)) old
         = (true, size))
  /\ (forall delta old,
         valid_delta delta ->
         parse_delta (after_bracket (print_delta delta)) old = (true, delta))
  /\ (forall border old,
         valid_border border ->
         parse_border (after_bracket (print_border border)) old = (true, border))
  /\ (forall a old,
         in_int32 a -> parse_delta (print_d a) old = (true, Delta.mk a a))
  /\ (forall a old,
         in_int32 a -> 0 <= a ->
         parse_rectangle_size (print_d a) old = (true, RectangleSize.mk a a))
  /\ (forall rect size delta border r s d b,
         fst (parse_rectangle count_pixels (print_rectangle rect) r) = false
         /\ fst (parse_rectangle_size (print_rectangle_size size) s) = false
         /\ fst (parse_delta (print_delta delta) d) = false
         /\ fst (parse_border (print_border border) b) = false).
Proof.
  repeat match goal with |- _ /\ _ => split end.
  - intros [[a b] [c d]] old (Ha & Hb & Hc & Hd & Hpos). cbn in Ha, Hb, Hc, Hd.
    unfold print_rectangle. cbn [after_bracket String.append Point.x Point.y
                                 Rectangle.vertex0 Rectangle.vertex1].
    rewrite (parse_rectangle_four count_pixels _ old a b c d)
      by (apply (four_values_printed a b c d "] "); auto).
    apply Z.ltb_lt in Hpos. rewrite Hpos. reflexivity.
  - intros [w h] old (Hw & Hh & Hw0 & Hh0). cbn in Hw, Hh, Hw0, Hh0.
    unfold print_rectangle_size, parse_rectangle_size, parse_symmetric_integers.
    cbn [after_bracket String.append RectangleSize.width RectangleSize.height].
    rewrite (sscanf_pair_two conv_d _ w h)
      by (apply (two_values_printed w h "] "); auto).
    cbn. apply Z.leb_le in Hw0, Hh0. rewrite Hw0, Hh0. reflexivity.
  - intros [h v] old (Hh & Hv). cbn in Hh, Hv.
    unfold print_delta, parse_delta, parse_symmetric_integers.
    cbn [after_bracket String.append Delta.horizontal Delta.vertical].
    rewrite (sscanf_pair_two conv_d _ h v)
      by (apply (two_values_printed h v "] "); auto).
    reflexivity.
  - intros [l t r b] old (Hl & Ht & Hr & Hb & Hl0 & Ht0 & Hr0 & Hb0).
    cbn in Hl, Ht, Hr, Hb, Hl0, Ht0, Hr0, Hb0.
    unfold print_border, parse_border.
    cbn [after_bracket String.append Border.left Border.top Border.right
                       Border.bottom].
    rewrite (sscanf_quad_four conv_d _ l t r b)
      by (apply (four_values_printed l t r b "] "); auto).
    cbn. apply Z.leb_le in Hl0, Ht0, Hr0, Hb0.
    rewrite Hl0, Ht0, Hr0, Hb0. reflexivity.
  - intros a old Ha. unfold parse_delta, parse_symmetric_integers.
    rewrite (sscanf_pair_one conv_d _ a) by (apply one_value_printed; exact Ha).
    reflexivity.
  - intros a old Ha Ha0. unfold parse_rectangle_size, parse_symmetric_integers.
    rewrite (sscanf_pair_one conv_d _ a) by (apply one_value_printed; exact Ha).
    cbn. apply Z.leb_le in Ha0. rewrite Ha0. reflexivity.
  - intros rect size delta border r s d b.
    unfold parse_rectangle, parse_rectangle_size, parse_delta, parse_border,
      parse_symmetric_integers, print_rectangle, print_rectangle_size,
      print_delta, print_border, fmt_pair, fmt_quad.
    cbn [String.append]. rewrite !sscanf_bracket. repeat split.
Qed.

(** The theorem on the rectangle (0,0)-(10,10), the size 640x480, the delta
    (-5, 7), the border 1,2,3,4 and the single number 100. *)
Lemma print_parse_inside_brackets_witness :
  SpecModel.parse_rectangle "0,0,10,10] " (Rectangle.mk (Point.mk 1 1) (Point.mk 1 1))
  = (true, Rectangle.mk (Point.mk 0 0) (Point.mk 10 10))
  /\ parse_rectangle_size "640,480] " (RectangleSize.mk 0 0)
     = (true, RectangleSize.mk 640 480)
  /\ parse_delta "-5,7] " (Delta.mk 0 0) = (true, Delta.mk (-5) 7)
  /\ parse_border "1,2,3,4] " (Border.mk 0 0 0 0) = (true, Border.mk 1 2 3 4)
  /\ parse_delta "100" (Delta.mk 0 0) = (true, Delta.mk 100 100)
  /\ parse_rectangle_size "100" (RectangleSize.mk 0 0)
     = (true, RectangleSize.mk 100 100).
Proof.
  pose proof (print_parse_inside_brackets SpecModel.count_pixels)
    as (Hrect & Hsize & Hdelta & Hborder & Hone & Hone' & _).
  unfold valid_rectangle, valid_size, valid_delta, valid_border, in_int32,
    INT32_MIN, INT32_MAX in *.
  repeat match goal with |- _ /\ _ => split end.
  - apply (Hrect (Rectangle.mk (Point.mk 0 0) (Point.mk 10 10))).
    vm_compute. intuition discriminate.
  - apply (Hsize (RectangleSize.mk 640 480)). cbn. lia.
  - apply (Hdelta (Delta.mk (-5) 7)). cbn. lia.
  - apply (Hborder (Border.mk 1 2 3 4)). cbn. lia.
  - apply (Hone 100). lia.
  - apply (Hone' 100); lia.
Defined.

(** C4, as it is written, fails: what the printers write is not accepted
    by the parsers, because of the bracket it starts with. *)
Lemma printed_text_rejected :
  print_delta (Delta.mk 3 4) = "[3,4] "
  /\ parse_delta (print_delta (Delta.mk 3 4)) (Delta.mk 0 0)
     = (false, Delta.mk 0 0)
  /\ fst (parse_rectangle_size (print_rectangle_size (RectangleSize.mk 3 4))
                               (RectangleSize.mk 0 0)) = false
  /\ fst (parse_border (print_border (Border.mk 1 2 3 4)) (Border.mk 0 0 0 0))
     = false
  /\ fst (SpecModel.parse_rectangle
            (print_rectangle (Rectangle.mk (Point.mk 0 0) (Point.mk 10 10)))
            (Rectangle.mk (Point.mk 0 0) (Point.mk 0 0))) = false.
Proof. repeat split. Qed.

(** ** Colours *)

Lemma print_02x_byte (n : Z) :
  0 <= n < 256 ->
  print_02x n = String (hex_char (n / 16)) (String (hex_char (n mod 16)) EmptyString).
Proof.
  intros Hn. unfold print_02x.
  change 16%nat with (S (S 14)). cbn [hex_digits].
  destruct (Z.ltb_spec n 16) as [Hlt | Hge].
  - rewrite Z.div_small by lia. reflexivity.
  - assert (n / 16 < 16) as Hq by (apply Z.div_lt_upper_bound; lia).
    assert (0 <= n / 16) as Hq0 by (apply Z.div_pos; lia).
    destruct (Z.ltb_spec (n / 16) 16) as [_ | ?]; [| lia].
    rewrite (Z.mod_small (n / 16)) by lia. reflexivity.
Qed.

Section ColorFacts.
Variables PIXEL_BLACK PIXEL_WHITE : Pixel.t.
Variable pixel_from_value : Z -> Pixel.t.
Variable compare_pixel : Pixel.t -> Pixel.t -> Z.

Hypothesis compare_pixel_eq : forall a b, compare_pixel a b = 0 <-> a = b.
Hypothesis black_not_white : PIXEL_BLACK <> PIXEL_WHITE.

Local Abbreviation parse :=
  (parse_color PIXEL_BLACK PIXEL_WHITE pixel_from_value).
Local Abbreviation print :=
  (print_color PIXEL_BLACK PIXEL_WHITE compare_pixel).

Lemma print_color_cases (p : Pixel.t) :
  (p = PIXEL_BLACK /\ print p = "black")
  \/ (p <> PIXEL_BLACK /\ p = PIXEL_WHITE /\ print p = "white")
  \/ (p <> PIXEL_BLACK /\ p <> PIXEL_WHITE
      /\ print p
         = ("#" ++ print_02x (Pixel.r p) ++ print_02x (Pixel.g p)
                ++ print_02x (Pixel.b p))%string).
Proof.
  unfold print_color.
  destruct (Z.eqb_spec (compare_pixel p PIXEL_BLACK) 0) as [H | H];
    rewrite compare_pixel_eq in H; [left; auto | right].
  destruct (Z.eqb_spec (compare_pixel p PIXEL_WHITE) 0) as [H' | H'];
    rewrite compare_pixel_eq in H'; [left; auto | right; auto].
Qed.

(** C7. ["black"] and ["white"], in this spelling only, are parsed to
    [PIXEL_BLACK] and [PIXEL_WHITE]; [print_color] writes the word
    "black" for [PIXEL_BLACK] and for no other colour, "white" for
    [PIXEL_WHITE] and for no other colour, so that the words are read
    back to the constants they were printed from; every other colour is
    written as [#] and two hexadecimal digits for each channel. *)
Theorem color_words_round_trip (c : Pixel.t) :
  parse "black" c = (true, PIXEL_BLACK)
  /\ parse "white" c = (true, PIXEL_WHITE)
  /\ fst (parse "Black" c) = false
  /\ fst (parse "WHITE" c) = false
  /\ (forall p, print p = "black" <-> p = PIXEL_BLACK)
  /\ (forall p, print p = "white" <-> p = PIXEL_WHITE)
  /\ parse (print PIXEL_BLACK) c = (true, PIXEL_BLACK)
  /\ parse (print PIXEL_WHITE) c = (true, PIXEL_WHITE)
  /\ (forall p,
         p <> PIXEL_BLACK -> p <> PIXEL_WHITE ->
         print p
         = ("#" ++ print_02x (Pixel.r p) ++ print_02x (Pixel.g p)
                ++ print_02x (Pixel.b p))%string)
  /\ (forall n,
         0 <= n < 256 ->
         print_02x n
         = String (hex_char (n / 16)) (String (hex_char (n mod 16)) EmptyString)).
Proof.
  assert (forall p, print p = "black" <-> p = PIXEL_BLACK) as Hblack.
  { intros p.
    destruct (print_color_cases p)
      as [[Hp ->] | [(Hb & Hp & ->) | (Hb & Hw & ->)]];
      split; solve [auto | discriminate | contradiction]. }
  assert (forall p, print p = "white" <-> p = PIXEL_WHITE) as Hwhite.
  { intros p.
    destruct (print_color_cases p)
      as [[Hp ->] | [(Hb & Hp & ->) | (Hb & Hw & ->)]];
      split; try solve [auto | discriminate | contradiction].
    intros Hw. congruence. }
  repeat match goal with |- _ /\ _ => split end;
    try reflexivity; try assumption.
  - rewrite (proj2 (Hblack PIXEL_BLACK) eq_refl). reflexivity.
  - rewrite (proj2 (Hwhite PIXEL_WHITE) eq_refl). reflexivity.
  - intros p Hb Hw.
    destruct (print_color_cases p)
      as [[Hp _] | [(_ & Hp & _) | (_ & _ & Hhex)]];
      [contradiction | contradiction | exact Hhex].
  - apply print_02x_byte.
Qed.
End ColorFacts.

Lemma model_compare_pixel_eq (a b : Pixel.t) :
  SpecModel.compare_pixel a b = 0 <-> a = b.
Proof.
  destruct a as [r1 g1 b1], b as [r2 g2 b2].
  unfold SpecModel.compare_pixel. cbn [Pixel.r Pixel.g Pixel.b].
  destruct (Z.eqb_spec r1 r2) as [-> | Hr]; cbn [negb].
  - destruct (Z.eqb_spec g1 g2) as [-> | Hg]; cbn [negb].
    + split; [intros H; f_equal; lia | intros [= ->]; lia].
    + split; [lia | intros [= ?]; contradiction].
  - split; [lia | intros [= ? _ _]; contradiction].
Qed.

(** The colour theorem on the pixels of the spec, and on the grey
    (16, 32, 171), written "#1020ab". *)
Lemma color_words_round_trip_witness :
  SpecModel.parse_color (SpecModel.print_color SpecModel.PIXEL_WHITE)
                        (Pixel.mk 1 2 3)
  = (true, SpecModel.PIXEL_WHITE)
  /\ SpecModel.print_color (Pixel.mk 16 32 171) = "#1020ab".
Proof.
  pose proof (color_words_round_trip
                SpecModel.PIXEL_BLACK SpecModel.PIXEL_WHITE
                SpecModel.pixel_from_value SpecModel.compare_pixel
                model_compare_pixel_eq ltac:(discriminate) (Pixel.mk 1 2 3))
    as (_ & _ & _ & _ & _ & _ & _ & Hwhite & Hhex & _).
  split; [exact Hwhite |].
  unfold SpecModel.print_color.
  rewrite (Hhex (Pixel.mk 16 32 171)) by discriminate. reflexivity.
Defined.

(** ** Numeric colours *)

Lemma pixel_from_value_channels (v : Z) :
  0 <= v ->
  SpecModel.pixel_from_value v
  = Pixel.mk (v / 65536 mod 256) (v / 256 mod 256) (v mod 256).
Proof.
  intros Hv. unfold SpecModel.pixel_from_value.
  change 255 with (Z.ones 8).
  rewrite !Z.land_ones, !Z.shiftr_div_pow2 by lia. reflexivity.
Qed.

Lemma digits_not_a_word (s : string) :
  starts_with_digit s = true ->
  (strcmp s "black" =? 0) = false /\ (strcmp s "white" =? 0) = false.
Proof.
  destruct s as [| c s]; [discriminate |]. cbn [starts_with_digit strcmp].
  unfold isdigit. intros Hc.
  change (char_code "b") with 98. change (char_code "w") with 119.
  destruct (Z.eqb_spec (char_code c) 98); [lia |].
  destruct (Z.eqb_spec (char_code c) 119); [lia |].
  split; apply Z.eqb_neq; lia.
Qed.

(** A decimal number that is not negative is parsed by the numeric
    fallback, as the packed value it denotes. *)
Lemma parse_color_decimal (v : Z) (c : Pixel.t) :
  0 <= v <= INT32_MAX ->
  SpecModel.parse_color (print_d v) c = (true, SpecModel.pixel_from_value v).
Proof.
  intros Hv. unfold INT32_MAX in Hv.
  assert (in_int32 v) as Hin by (unfold in_int32, INT32_MIN, INT32_MAX; lia).
  assert (starts_with_digit (print_d v) = true) as Hhead.
  { unfold print_d. destruct (Z.ltb_spec v 0); [lia |].
    apply decimal_digits_head; lia. }
  destruct (digits_not_a_word _ Hhead) as [Hb Hw].
  unfold SpecModel.parse_color, parse_color. rewrite Hb, Hw.
  unfold sscanf. cbn [sscanf_from].
  rewrite <- (append_empty (print_d v)) at 1.
  rewrite conv_d_print_d by (exact Hin || reflexivity).
  cbn. unfold to_uint32. rewrite Z.mod_small by lia. reflexivity.
Qed.

(** C8, as the code has it, on the pixels of the spec.  ["16777215"] is
    parsed by the numeric fallback, as the packed value 0xFFFFFF; this is
    the pixel [PIXEL_WHITE], which [print_color] writes as the word
    "white".  A number strictly between 0 and 16777215 is parsed to a
    pixel that is written as [#] and the six hexadecimal digits of the
    number: two for each of its three bytes. *)
Theorem numeric_color_round_trip (c : Pixel.t) :
  SpecModel.parse_color "16777215" c
  = (true, SpecModel.pixel_from_value 16777215)
  /\ fst (sscanf conv_d "16777215" [Conv]) = 1
  /\ SpecModel.pixel_from_value 16777215 = SpecModel.PIXEL_WHITE
  /\ SpecModel.print_color (snd (SpecModel.parse_color "16777215" c)) = "white"
  /\ (forall v,
         0 < v < 16777215 ->
         SpecModel.parse_color (print_d v) c
         = (true, SpecModel.pixel_from_value v)
         /\ SpecModel.print_color (SpecModel.pixel_from_value v)
            = ("#" ++ print_02x (v / 65536) ++ print_02x (v / 256 mod 256)
                   ++ print_02x (v mod 256))%string).
Proof.
  repeat match goal with |- _ /\ _ => split end; try reflexivity.
  intros v Hv. split.
  - apply parse_color_decimal. unfold INT32_MAX. lia.
  - rewrite pixel_from_value_channels by lia.
    assert (0 <= v / 65536 < 256) as Hr
        by (split; [apply Z.div_pos; lia | apply Z.div_lt_upper_bound; lia]).
    rewrite (Z.mod_small (v / 65536)) by exact Hr.
    pose proof (Z.div_mod v 256 ltac:(lia)) as Hlow.
    pose proof (Z.div_mod (v / 256) 256 ltac:(lia)) as Hmid.
    rewrite (Z.div_div v 256 256) in Hmid by lia. change (256 * 256) with 65536 in Hmid.
    destruct (print_color_cases SpecModel.PIXEL_BLACK SpecModel.PIXEL_WHITE
                SpecModel.compare_pixel model_compare_pixel_eq
                (Pixel.mk (v / 65536) (v / 256 mod 256) (v mod 256)))
      as [[Hp _] | [(_ & Hp & _) | (_ & _ & Hhex)]].
    + exfalso. injection Hp as H1 H2 H3. lia.
    + exfalso. injection Hp as H1 H2 H3. lia.
    + exact Hhex.
Qed.

Lemma numeric_color_round_trip_witness :
  SpecModel.parse_color "1056939" (Pixel.mk 0 0 0)
  = (true, Pixel.mk 16 32 171)
  /\ SpecModel.print_color (Pixel.mk 16 32 171) = "#1020ab".
Proof.
  pose proof (numeric_color_round_trip (Pixel.mk 0 0 0))
    as (_ & _ & _ & _ & Hnum).
  destruct (Hnum 1056939 ltac:(lia)) as [Hparse Hprint].
  split; [exact Hparse | exact Hprint].
Defined.

(** C8, as it is written, fails: the colour parsed from "16777215" is
    written as the word "white", not as the hexadecimal triplet of
    0xFFFFFF. *)
Lemma numeric_white_prints_word :
  SpecModel.parse_color "16777215" (Pixel.mk 0 0 0)
  = (true, Pixel.mk 255 255 255)
  /\ SpecModel.print_color
       (snd (SpecModel.parse_color "16777215" (Pixel.mk 0 0 0))) = "white"
  /\ SpecModel.print_color
       (snd (SpecModel.parse_color "16777215" (Pixel.mk 0 0 0))) <> "#ffffff".
Proof. split; [reflexivity | split; [reflexivity | discriminate]]. Qed.

(** * Further properties of the parsers *)

(** ** What [%d] stores *)

Lemma conv_d_range (s : string) (v : Z) (rest : string) :
  conv_d s = Converted v rest -> in_int32 v.
Proof.
  unfold conv_d. destruct (skip_space s) as [| c s1]; [discriminate |].
  destruct (if Ascii.eqb c "-" then (true, s1)
            else if Ascii.eqb c "+" then (false, s1)
            else (false, String c s1)) as [negative s2].
  destruct (starts_with_digit s2); [| discriminate].
  destruct (scan_digits 0 s2) as [m rest'].
  intros [= <- _]. apply to_int32_range.
Qed.

Lemma symmetric_integers_none (str : string) (i1 i2 : Z) :
  no_value conv_d str ->
  parse_symmetric_integers str i1 i2 = (false, (i1, i2)).
Proof.
  intros H. unfold parse_symmetric_integers.
  destruct (sscanf_pair_none _ _ H) as [Hn Hv].
  destruct (sscanf conv_d str fmt_pair) as [n vals]. cbn in Hn, Hv. subst vals.
  destruct (Z.eqb_spec n 1); [lia |]. destruct (Z.eqb_spec n 2); [lia |].
  reflexivity.
Qed.

Lemma symmetric_integers_one (str : string) (i1 i2 a : Z) :
  one_value conv_d str a ->
  parse_symmetric_integers str i1 i2 = (true, (a, a)).
Proof.
  intros H. unfold parse_symmetric_integers.
  rewrite (sscanf_pair_one _ _ _ H). reflexivity.
Qed.

Lemma symmetric_integers_two (str : string) (i1 i2 a b : Z) :
  two_values conv_d str a b ->
  parse_symmetric_integers str i1 i2 = (true, (a, b)).
Proof.
  intros H. unfold parse_symmetric_integers.
  rewrite (sscanf_pair_two _ _ _ _ H). reflexivity.
Qed.

(** The result of the integer pair parser, in one statement: it fails and
    keeps the slots, or it succeeds with two [int32_t] values. *)
Lemma symmetric_integers_result (str : string) (i1 i2 : Z) :
  (no_value conv_d str
   /\ parse_symmetric_integers str i1 i2 = (false, (i1, i2)))
  \/ (exists a b,
         in_int32 a /\ in_int32 b
         /\ (one_value conv_d str a /\ b = a \/ two_values conv_d str a b)
         /\ parse_symmetric_integers str i1 i2 = (true, (a, b))).
Proof.
  destruct (values_cases conv_d str) as [Hno | [[a Hone] | (a & b & Htwo)]].
  - left. split; [exact Hno | apply symmetric_integers_none; exact Hno].
  - right. exists a, a.
    pose proof Hone as (rest & Hs & _). apply conv_d_range in Hs.
    split; [exact Hs | split; [exact Hs | split; [left; auto |]]].
    apply symmetric_integers_one; exact Hone.
  - right. exists a, b.
    pose proof Htwo as (s1 & rest & Hs & Hs1).
    apply conv_d_range in Hs, Hs1.
    split; [exact Hs | split; [exact Hs1 | split; [right; exact Htwo |]]].
    apply symmetric_integers_two; exact Htwo.
Qed.

Lemma four_values_range (str : string) (a b c d : Z) :
  four_values conv_d str a b c d ->
  in_int32 a /\ in_int32 b /\ in_int32 c /\ in_int32 d.
Proof.
  intros (s1 & s2 & s3 & rest & H1 & H2 & H3 & H4).
  apply conv_d_range in H1, H2, H3, H4. auto.
Qed.

Lemma parse_border_four (str : string) (old : Border.t) (l t r b : Z) :
  four_values conv_d str l t r b ->
  parse_border str old
  = ((0 <=? l) && (0 <=? t) && (0 <=? r) && (0 <=? b), Border.mk l t r b).
Proof.
  intros H. unfold parse_border.
  rewrite (sscanf_quad_four _ _ _ _ _ _ H). reflexivity.
Qed.

Lemma parse_border_inv (str : string) (old : Border.t) :
  fst (parse_border str old) = true ->
  exists l t r b, four_values conv_d str l t r b.
Proof.
  unfold parse_border.
  destruct (sscanf conv_d str fmt_quad) as [n vals] eqn:Hscan.
  destruct (Z.eqb_spec n 4) as [-> | Hn]; cbn; [| discriminate].
  destruct (sscanf_quad_inv _ _ _ Hscan) as (l & t & r & b & _ & Hfour).
  intros _. exists l, t, r, b. exact Hfour.
Qed.

Lemma parse_rectangle_inv (count_pixels : Rectangle.t -> Z)
    (str : string) (old : Rectangle.t) :
  fst (parse_rectangle count_pixels str old) = true ->
  exists a b c d, four_values conv_d str a b c d.
Proof.
  unfold parse_rectangle.
  destruct (sscanf conv_d str fmt_quad) as [n vals] eqn:Hscan.
  destruct (Z.eqb_spec n 4) as [-> | Hn]; cbn; [| discriminate].
  destruct (sscanf_quad_inv _ _ _ Hscan) as (a & b & c & d & _ & Hfour).
  intros _. exists a, b, c, d. exact Hfour.
Qed.

(** ** Accepted values are valid *)

(** X1. [parse_delta] succeeds exactly when a first integer can be
    scanned; the delta it then stores has two [int32_t] components, and a
    failing call leaves the slot as it was. *)
Theorem parse_delta_accepts (str : string) (delta : Delta.t) :
  (fst (parse_delta str delta) = true <->
   exists a rest, conv_d str = Converted a rest)
  /\ (fst (parse_delta str delta) = true ->
      valid_delta (snd (parse_delta str delta)))
  /\ (fst (parse_delta str delta) = false ->
      snd (parse_delta str delta) = delta).
Proof.
  unfold parse_delta.
  destruct (symmetric_integers_result str (Delta.horizontal delta)
              (Delta.vertical delta))
    as [[Hno ->] | (a & b & Ha & Hb & Hcase & ->)]; cbn [fst snd].
  - split; [split | split].
    + discriminate.
    + intros (a & rest & H). exfalso. exact (Hno a rest H).
    + discriminate.
    + intros _. destruct delta; reflexivity.
  - split; [split | split].
    + intros _.
      destruct Hcase as [[(rest & H & _) _] | (s1 & rest & H & _)]; eauto.
    + reflexivity.
    + intros _. split; assumption.
    + discriminate.
Qed.

Lemma parse_delta_accepts_witness :
  valid_delta (snd (parse_delta "-40" (Delta.mk 0 0)))
  /\ snd (parse_delta "x" (Delta.mk 3 4)) = Delta.mk 3 4.
Proof.
  pose proof (parse_delta_accepts "-40" (Delta.mk 0 0)) as (_ & Hok & _).
  pose proof (parse_delta_accepts "x" (Delta.mk 3 4)) as (_ & _ & Hfail).
  split; [apply Hok | apply Hfail]; reflexivity.
Defined.

(** X2. [parse_rectangle_size] succeeds exactly when the integer pair is
    parsed and neither dimension is negative.  An accepted size has two
    [int32_t] dimensions that are not negative, so the unset value
    (-1, -1) cannot be entered. *)
Theorem parse_rectangle_size_accepts (str : string) (size : RectangleSize.t) :
  (fst (parse_rectangle_size str size) = true <->
   exists w h,
     parse_symmetric_integers str (RectangleSize.width size)
                              (RectangleSize.height size) = (true, (w, h))
     /\ 0 <= w /\ 0 <= h)
  /\ (fst (parse_rectangle_size str size) = true ->
      valid_size (snd (parse_rectangle_size str size))
      /\ snd (parse_rectangle_size str size) <> unset_size).
Proof.
  unfold parse_rectangle_size.
  destruct (symmetric_integers_result str (RectangleSize.width size)
              (RectangleSize.height size))
    as [[Hno ->] | (a & b & Ha & Hb & _ & ->)]; cbn [fst snd negb].
  - split; [split; [discriminate | intros (w & h & [=] & _)] | discriminate].
  - cbn [RectangleSize.width RectangleSize.height].
    rewrite andb_true_iff, !Z.leb_le. split.
    + split; [intros H; exists a, b; tauto
             | intros (w & h & [= <- <-] & H); exact H].
    + intros [Ha0 Hb0]. split.
      * unfold valid_size. cbn. auto.
      * unfold unset_size. intros [= -> _]. lia.
Qed.

Lemma parse_rectangle_size_accepts_witness :
  valid_size (snd (parse_rectangle_size "210,297" (RectangleSize.mk (-1) (-1))))
  /\ fst (parse_rectangle_size "-1,-1" (RectangleSize.mk 0 0)) = false.
Proof.
  pose proof (parse_rectangle_size_accepts "210,297" (RectangleSize.mk (-1) (-1)))
    as (_ & Hok).
  split; [apply Hok |]; reflexivity.
Defined.

(** X3. [parse_border] succeeds exactly when four integers separated by
    commas are scanned and none is negative; there is no broadcast of a
    single value.  An accepted border has four [int32_t] margins that are
    not negative. *)
Theorem parse_border_accepts (str : string) (border : Border.t) :
  (fst (parse_border str border) = true <->
   exists l t r b,
     four_values conv_d str l t r b
     /\ 0 <= l /\ 0 <= t /\ 0 <= r /\ 0 <= b)
  /\ (fst (parse_border str border) = true ->
      valid_border (snd (parse_border str border)))
  /\ (forall a, one_value conv_d str a -> fst (parse_border str border) = false).
Proof.
  repeat match goal with |- _ /\ _ => split end.
  - split.
    + intros H. destruct (parse_border_inv _ _ H) as (l & t & r & b & Hfour).
      rewrite (parse_border_four _ _ _ _ _ _ Hfour) in H. cbn in H.
      rewrite !andb_true_iff, !Z.leb_le in H.
      exists l, t, r, b. tauto.
    + intros (l & t & r & b & Hfour & H).
      rewrite (parse_border_four _ _ _ _ _ _ Hfour). cbn.
      rewrite !andb_true_iff, !Z.leb_le. tauto.
  - intros H. destruct (parse_border_inv _ _ H) as (l & t & r & b & Hfour).
    rewrite (parse_border_four _ _ _ _ _ _ Hfour) in *. cbn in *.
    rewrite !andb_true_iff, !Z.leb_le in H.
    destruct (four_values_range _ _ _ _ _ Hfour) as (? & ? & ? & ?).
    unfold valid_border. cbn. tauto.
  - intros a (rest & Hs & Hrest).
    destruct (fst (parse_border str border)) eqn:H; [| reflexivity].
    destruct (parse_border_inv _ _ H) as (l & t & r & b & Hfour).
    destruct Hfour as (s1 & s2 & s3 & rest' & H1 & H2 & _).
    rewrite H1 in Hs. injection Hs as <- <-.
    exfalso. exact (Hrest s1 eq_refl t _ H2).
Qed.

Lemma parse_border_accepts_witness :
  valid_border (snd (parse_border "10,20,30,40" (Border.mk 0 0 0 0)))
  /\ fst (parse_border "10" (Border.mk 0 0 0 0)) = false.
Proof.
  pose proof (parse_border_accepts "10,20,30,40" (Border.mk 0 0 0 0))
    as (_ & Hok & _).
  pose proof (parse_border_accepts "10" (Border.mk 0 0 0 0)) as (_ & _ & Hone).
  split; [apply Hok; reflexivity |].
  apply (Hone 10). exists EmptyString. split; [reflexivity | discriminate].
Defined.

(** X4. A rectangle accepted by [parse_rectangle] is valid: four [int32_t]
    coordinates and a strictly positive pixel count; with fewer than four
    integers (a single one, say) the call fails. *)
Theorem parse_rectangle_accepts (count_pixels : Rectangle.t -> Z)
    (str : string) (rect : Rectangle.t) :
  (fst (parse_rectangle count_pixels str rect) = true ->
   valid_rectangle count_pixels (snd (parse_rectangle count_pixels str rect)))
  /\ (forall a, one_value conv_d str a ->
                fst (parse_rectangle count_pixels str rect) = false).
Proof.
  split.
  - intros H. destruct (parse_rectangle_inv _ _ _ H) as (a & b & c & d & Hfour).
    rewrite (parse_rectangle_four _ _ _ _ _ _ _ Hfour) in *. cbn [fst snd] in *.
    apply Z.ltb_lt in H.
    destruct (four_values_range _ _ _ _ _ Hfour) as (? & ? & ? & ?).
    unfold valid_rectangle. cbn. tauto.
  - intros a (rest & Hs & Hrest).
    destruct (fst (parse_rectangle count_pixels str rect)) eqn:H; [| reflexivity].
    destruct (parse_rectangle_inv _ _ _ H) as (l & t & r & b & Hfour).
    destruct Hfour as (s1 & s2 & s3 & rest' & H1 & H2 & _).
    rewrite H1 in Hs. injection Hs as <- <-.
    exfalso. exact (Hrest s1 eq_refl t _ H2).
Qed.

Lemma parse_rectangle_accepts_witness :
  valid_rectangle SpecModel.count_pixels
    (snd (SpecModel.parse_rectangle "5,5,25,45"
            (Rectangle.mk (Point.mk 0 0) (Point.mk 0 0))))
  /\ fst (SpecModel.parse_rectangle "5"
            (Rectangle.mk (Point.mk 0 0) (Point.mk 0 0))) = false.
Proof.
  pose proof (parse_rectangle_accepts SpecModel.count_pixels "5,5,25,45"
                (Rectangle.mk (Point.mk 0 0) (Point.mk 0 0))) as (Hok & _).
  pose proof (parse_rectangle_accepts SpecModel.count_pixels "5"
                (Rectangle.mk (Point.mk 0 0) (Point.mk 0 0))) as (_ & Hone).
  split; [apply Hok; reflexivity |].
  apply (Hone 5). exists EmptyString. split; [reflexivity | discriminate].
Defined.

(** ** Rejected values *)

(** X5. A text that is scanned in full but fails the validation of its
    domain is rejected after it was stored: the slot then holds the
    rejected value, whatever it held before.  This is so for a size with a
    negative dimension, a scan step with a component that is not positive,
    a border with a negative margin, and a rectangle without pixels. *)
Theorem rejected_value_is_stored (count_pixels : Rectangle.t -> Z)
    (str : string) :
  (forall a b old,
      two_values conv_d str a b -> a < 0 \/ b < 0 ->
      parse_rectangle_size str old = (false, RectangleSize.mk a b))
  /\ (forall a b old,
         two_values conv_d str a b -> a <= 0 \/ b <= 0 ->
         parse_scan_step str old = (false, Delta.mk a b))
  /\ (forall l t r b old,
         four_values conv_d str l t r b -> l < 0 \/ t < 0 \/ r < 0 \/ b < 0 ->
         parse_border str old = (false, Border.mk l t r b))
  /\ (forall a b c d old,
         four_values conv_d str a b c d ->
         count_pixels (Rectangle.mk (Point.mk a b) (Point.mk c d)) <= 0 ->
         parse_rectangle count_pixels str old
         = (false, Rectangle.mk (Point.mk a b) (Point.mk c d))).
Proof.
  repeat match goal with |- _ /\ _ => split end.
  - intros a b old Htwo Hneg. unfold parse_rectangle_size.
    rewrite (symmetric_integers_two _ _ _ _ _ Htwo). cbn.
    destruct (Z.leb_spec 0 a), (Z.leb_spec 0 b); cbn; (reflexivity || lia).
  - intros a b old Htwo Hneg. unfold parse_scan_step, parse_delta.
    rewrite (symmetric_integers_two _ _ _ _ _ Htwo). cbn.
    destruct (Z.ltb_spec 0 a), (Z.ltb_spec 0 b); cbn; (reflexivity || lia).
  - intros l t r b old Hfour Hneg.
    rewrite (parse_border_four _ _ _ _ _ _ Hfour). f_equal.
    destruct (Z.leb_spec 0 l), (Z.leb_spec 0 t), (Z.leb_spec 0 r),
      (Z.leb_spec 0 b); cbn; (reflexivity || lia).
  - intros a b c d old Hfour Hzero.
    rewrite (parse_rectangle_four _ _ _ _ _ _ _ Hfour). f_equal.
    apply Z.ltb_ge. exact Hzero.
Qed.

Lemma rejected_value_is_stored_witness :
  parse_rectangle_size "-1,5" (RectangleSize.mk 640 480)
  = (false, RectangleSize.mk (-1) 5)
  /\ parse_scan_step "0,5" (Delta.mk 1 1) = (false, Delta.mk 0 5)
  /\ parse_border "1,2,-3,4" (Border.mk 0 0 0 0) = (false, Border.mk 1 2 (-3) 4)
  /\ SpecModel.parse_rectangle "9,9,2,2"
       (Rectangle.mk (Point.mk 0 0) (Point.mk 10 10))
     = (false, Rectangle.mk (Point.mk 9 9) (Point.mk 2 2)).
Proof.
  repeat match goal with |- _ /\ _ => split end.
  - apply (rejected_value_is_stored SpecModel.count_pixels "-1,5");
      [exists "5", EmptyString; split; reflexivity | lia].
  - apply (rejected_value_is_stored SpecModel.count_pixels "0,5");
      [exists "5", EmptyString; split; reflexivity | lia].
  - apply (rejected_value_is_stored SpecModel.count_pixels "1,2,-3,4");
      [exists "2,-3,4", "-3,4", "4", EmptyString; repeat split | lia].
  - apply (rejected_value_is_stored SpecModel.count_pixels "9,9,2,2");
      [exists "9,2,2", "2,2", "2", EmptyString; repeat split
      | vm_compute; discriminate].
Defined.

(** ** Printed values, parsed again *)

Lemma parse_delta_printed (h v : Z) (rest : string) (old : Delta.t) :
  in_int32 h -> in_int32 v -> starts_with_digit rest = false ->
  parse_delta (print_d h ++ "," ++ print_d v ++ rest) old
  = (true, Delta.mk h v).
Proof.
  intros Hh Hv Hrest. unfold parse_delta.
  rewrite (symmetric_integers_two _ _ _ h v)
    by (apply two_values_printed; assumption).
  reflexivity.
Qed.

Lemma parse_size_printed (w h : Z) (rest : string) (old : RectangleSize.t) :
  in_int32 w -> in_int32 h -> 0 <= w -> 0 <= h ->
  starts_with_digit rest = false ->
  parse_rectangle_size (print_d w ++ "," ++ print_d h ++ rest) old
  = (true, RectangleSize.mk w h).
Proof.
  intros Hw Hh Hw0 Hh0 Hrest. unfold parse_rectangle_size.
  rewrite (symmetric_integers_two _ _ _ w h)
    by (apply two_values_printed; assumption).
  cbn. apply Z.leb_le in Hw0, Hh0. rewrite Hw0, Hh0. reflexivity.
Qed.

Lemma parse_border_printed (l t r b : Z) (rest : string) (old : Border.t) :
  valid_border (Border.mk l t r b) ->
  starts_with_digit rest = false ->
  parse_border (print_d l ++ "," ++ print_d t ++ "," ++ print_d r ++ ","
                        ++ print_d b ++ rest) old
  = (true, Border.mk l t r b).
Proof.
  intros (Hl & Ht & Hr & Hb & Hl0 & Ht0 & Hr0 & Hb0) Hrest.
  cbn in Hl, Ht, Hr, Hb, Hl0, Ht0, Hr0, Hb0.
  rewrite (parse_border_four _ _ l t r b)
    by (apply four_values_printed; assumption).
  apply Z.leb_le in Hl0, Ht0, Hr0, Hb0.
  rewrite Hl0, Ht0, Hr0, Hb0. reflexivity.
Qed.

Lemma parse_rectangle_printed (count_pixels : Rectangle.t -> Z)
    (a b c d : Z) (rest : string) (old : Rectangle.t) :
  valid_rectangle count_pixels (Rectangle.mk (Point.mk a b) (Point.mk c d)) ->
  starts_with_digit rest = false ->
  parse_rectangle count_pixels
    (print_d a ++ "," ++ print_d b ++ "," ++ print_d c ++ ","
             ++ print_d d ++ rest) old
  = (true, Rectangle.mk (Point.mk a b) (Point.mk c d)).
Proof.
  intros (Ha & Hb & Hc & Hd & Hpos) Hrest. cbn in Ha, Hb, Hc, Hd.
  rewrite (parse_rectangle_four _ _ _ a b c d)
    by (apply four_values_printed; assumption).
  apply Z.ltb_lt in Hpos. rewrite Hpos. reflexivity.
Qed.

Lemma accepted_delta (str : string) (old : Delta.t) :
  fst (parse_delta str old) = true -> valid_delta (snd (parse_delta str old)).
Proof.
  unfold parse_delta.
  destruct (symmetric_integers_result str (Delta.horizontal old)
              (Delta.vertical old))
    as [[_ ->] | (a & b & Ha & Hb & _ & ->)]; cbn [fst snd]; [discriminate |].
  intros _. split; assumption.
Qed.

Lemma accepted_size (str : string) (old : RectangleSize.t) :
  fst (parse_rectangle_size str old) = true ->
  valid_size (snd (parse_rectangle_size str old)).
Proof.
  unfold parse_rectangle_size.
  destruct (symmetric_integers_result str (RectangleSize.width old)
              (RectangleSize.height old))
    as [[_ ->] | (a & b & Ha & Hb & _ & ->)]; cbn [fst snd negb];
    [discriminate |].
  cbn [RectangleSize.width RectangleSize.height].
  rewrite andb_true_iff, !Z.leb_le. intros [Ha0 Hb0].
  unfold valid_size. cbn. auto.
Qed.

Lemma accepted_border (str : string) (old : Border.t) :
  fst (parse_border str old) = true -> valid_border (snd (parse_border str old)).
Proof.
  intros H. destruct (parse_border_inv _ _ H) as (l & t & r & b & Hfour).
  rewrite (parse_border_four _ _ _ _ _ _ Hfour) in *. cbn [fst snd] in *.
  rewrite !andb_true_iff, !Z.leb_le in H.
  destruct (four_values_range _ _ _ _ _ Hfour) as (? & ? & ? & ?).
  unfold valid_border. cbn. tauto.
Qed.

Lemma accepted_rectangle (count_pixels : Rectangle.t -> Z)
    (str : string) (old : Rectangle.t) :
  fst (parse_rectangle count_pixels str old) = true ->
  valid_rectangle count_pixels (snd (parse_rectangle count_pixels str old)).
Proof.
  intros H. destruct (parse_rectangle_inv _ _ _ H) as (a & b & c & d & Hfour).
  rewrite (parse_rectangle_four _ _ _ _ _ _ _ Hfour) in *. cbn [fst snd] in *.
  apply Z.ltb_lt in H.
  destruct (four_values_range _ _ _ _ _ Hfour) as (? & ? & ? & ?).
  unfold valid_rectangle. cbn. tauto.
Qed.

(** X6. Parsing is stable under printing: when a parser accepts a text,
    the value it stored, printed and parsed again (without the opening
    bracket), is accepted and is the same value.  This holds for deltas,
    sizes, borders and rectangles. *)
Theorem reparse_printed_value (count_pixels : Rectangle.t -> Z) (str : string) :
  (forall old any,
      fst (parse_delta str old) = true ->
      parse_delta (after_bracket (print_delta (snd (parse_delta str old)))) any
      = (true, snd (parse_delta str old)))
  /\ (forall old any,
         fst (parse_rectangle_size str old) = true ->
         parse_rectangle_size
           (after_bracket (print_rectangle_size
                             (snd (parse_rectangle_size str old)))) any
         = (true, snd (parse_rectangle_size str old)))
  /\ (forall old any,
         fst (parse_border str old) = true ->
         parse_border (after_bracket (print_border (snd (parse_border str old))))
                      any
         = (true, snd (parse_border str old)))
  /\ (forall old any,
         fst (parse_rectangle count_pixels str old) = true ->
         parse_rectangle count_pixels
           (after_bracket (print_rectangle
                             (snd (parse_rectangle count_pixels str old)))) any
         = (true, snd (parse_rectangle count_pixels str old))).
Proof.
  repeat match goal with |- _ /\ _ => split end; intros old any H.
  - apply accepted_delta in H.
    destruct (snd (parse_delta str old)) as [h v].
    destruct H as [Hh Hv]. apply (parse_delta_printed h v "] "); auto.
  - apply accepted_size in H.
    destruct (snd (parse_rectangle_size str old)) as [w h].
    destruct H as (Hw & Hh & Hw0 & Hh0).
    apply (parse_size_printed w h "] "); auto.
  - apply accepted_border in H.
    destruct (snd (parse_border str old)) as [l t r b].
    apply (parse_border_printed l t r b "] "); [exact H | reflexivity].
  - apply accepted_rectangle in H.
    destruct (snd (parse_rectangle count_pixels str old)) as [[a b] [c d]].
    apply (parse_rectangle_printed count_pixels a b c d "] ");
      [exact H | reflexivity].
Qed.

Lemma reparse_printed_value_witness :
  parse_delta (after_bracket (print_delta (snd (parse_delta " +7" (Delta.mk 0 0)))))
              (Delta.mk 1 1)
  = (true, Delta.mk 7 7)
  /\ parse_border
       (after_bracket
          (print_border (snd (parse_border "1,2,3,4,5" (Border.mk 0 0 0 0)))))
       (Border.mk 9 9 9 9)
     = (true, Border.mk 1 2 3 4).
Proof.
  pose proof (reparse_printed_value SpecModel.count_pixels " +7") as (Hd & _).
  pose proof (reparse_printed_value SpecModel.count_pixels "1,2,3,4,5")
    as (_ & _ & Hb & _).
  split.
  - apply (Hd (Delta.mk 0 0) (Delta.mk 1 1)). reflexivity.
  - apply (Hb (Border.mk 0 0 0 0) (Border.mk 9 9 9 9)). reflexivity.
Defined.

(** X7. The printed form identifies the value: two valid deltas, sizes,
    borders or rectangles with the same printed text are equal. *)
Theorem printers_injective (count_pixels : Rectangle.t -> Z) :
  (forall d1 d2,
      valid_delta d1 -> valid_delta d2 ->
      print_delta d1 = print_delta d2 -> d1 = d2)
  /\ (forall s1 s2,
         valid_size s1 -> valid_size s2 ->
         print_rectangle_size s1 = print_rectangle_size s2 -> s1 = s2)
  /\ (forall b1 b2,
         valid_border b1 -> valid_border b2 ->
         print_border b1 = print_border b2 -> b1 = b2)
  /\ (forall r1 r2,
         valid_rectangle count_pixels r1 -> valid_rectangle count_pixels r2 ->
         print_rectangle r1 = print_rectangle r2 -> r1 = r2).
Proof.
  repeat match goal with |- _ /\ _ => split end.
  - intros [h1 v1] [h2 v2] [Hh1 Hv1] [Hh2 Hv2] Heq.
    cbn in Hh1, Hv1, Hh2, Hv2.
    pose proof (parse_delta_printed h1 v1 "] " (Delta.mk 0 0) Hh1 Hv1 eq_refl) as H1.
    pose proof (parse_delta_printed h2 v2 "] " (Delta.mk 0 0) Hh2 Hv2 eq_refl) as H2.
    change (print_d h1 ++ "," ++ print_d v1 ++ "] ")%string
      with (after_bracket (print_delta (Delta.mk h1 v1))) in H1.
    change (print_d h2 ++ "," ++ print_d v2 ++ "] ")%string
      with (after_bracket (print_delta (Delta.mk h2 v2))) in H2.
    rewrite Heq in H1. congruence.
  - intros [w1 h1] [w2 h2] (Hw1 & Hh1 & Hw10 & Hh10) (Hw2 & Hh2 & Hw20 & Hh20) Heq.
    cbn in Hw1, Hh1, Hw10, Hh10, Hw2, Hh2, Hw20, Hh20.
    pose proof (parse_size_printed w1 h1 "] " (RectangleSize.mk 0 0)
                  Hw1 Hh1 Hw10 Hh10 eq_refl) as H1.
    pose proof (parse_size_printed w2 h2 "] " (RectangleSize.mk 0 0)
                  Hw2 Hh2 Hw20 Hh20 eq_refl) as H2.
    change (print_d w1 ++ "," ++ print_d h1 ++ "] ")%string
      with (after_bracket (print_rectangle_size (RectangleSize.mk w1 h1))) in H1.
    change (print_d w2 ++ "," ++ print_d h2 ++ "] ")%string
      with (after_bracket (print_rectangle_size (RectangleSize.mk w2 h2))) in H2.
    rewrite Heq in H1. congruence.
  - intros [l1 t1 r1 b1] [l2 t2 r2 b2] Hv1 Hv2 Heq.
    pose proof (parse_border_printed l1 t1 r1 b1 "] " (Border.mk 0 0 0 0)
                  Hv1 eq_refl) as H1.
    pose proof (parse_border_printed l2 t2 r2 b2 "] " (Border.mk 0 0 0 0)
                  Hv2 eq_refl) as H2.
    change (print_d l1 ++ "," ++ print_d t1 ++ "," ++ print_d r1 ++ ","
                    ++ print_d b1 ++ "] ")%string
      with (after_bracket (print_border (Border.mk l1 t1 r1 b1))) in H1.
    change (print_d l2 ++ "," ++ print_d t2 ++ "," ++ print_d r2 ++ ","
                    ++ print_d b2 ++ "] ")%string
      with (after_bracket (print_border (Border.mk l2 t2 r2 b2))) in H2.
    rewrite Heq in H1. congruence.
  - intros [[a1 b1] [c1 d1]] [[a2 b2] [c2 d2]] Hv1 Hv2 Heq.
    pose proof (parse_rectangle_printed count_pixels a1 b1 c1 d1 "] "
                  (Rectangle.mk (Point.mk 0 0) (Point.mk 0 0)) Hv1 eq_refl) as H1.
    pose proof (parse_rectangle_printed count_pixels a2 b2 c2 d2 "] "
                  (Rectangle.mk (Point.mk 0 0) (Point.mk 0 0)) Hv2 eq_refl) as H2.
    change (print_d a1 ++ "," ++ print_d b1 ++ "," ++ print_d c1 ++ ","
                    ++ print_d d1 ++ "] ")%string
      with (after_bracket
              (print_rectangle (Rectangle.mk (Point.mk a1 b1) (Point.mk c1 d1))))
      in H1.
    change (print_d a2 ++ "," ++ print_d b2 ++ "," ++ print_d c2 ++ ","
                    ++ print_d d2 ++ "] ")%string
      with (after_bracket
              (print_rectangle (Rectangle.mk (Point.mk a2 b2) (Point.mk c2 d2))))
      in H2.
    rewrite Heq in H1. congruence.
Qed.

(** The deltas (1, 23) and (12, 3) are printed differently. *)
Lemma printers_injective_witness :
  print_delta (Delta.mk 1 23) <> print_delta (Delta.mk 12 3).
Proof.
  intros Heq.
  assert (valid_delta (Delta.mk 1 23)) as H1
      by (split; cbn; unfold in_int32, INT32_MIN, INT32_MAX; lia).
  assert (valid_delta (Delta.mk 12 3)) as H2
      by (split; cbn; unfold in_int32, INT32_MIN, INT32_MAX; lia).
  pose proof (proj1 (printers_injective SpecModel.count_pixels) _ _ H1 H2 Heq)
    as Hsame.
  discriminate Hsame.
Defined.

(** ** What the scan ignores *)

(** X8. Text after the last field is ignored: once the two fields of a
    delta or a size, or the four fields of a border or a rectangle, are
    scanned, whatever follows (a further ",5", say) does not change the
    result.  A third value does not make a pair fail. *)
Theorem text_after_fields_ignored (count_pixels : Rectangle.t -> Z)
    (rest : string) :
  starts_with_digit rest = false ->
  (forall h v old,
      valid_delta (Delta.mk h v) ->
      parse_delta (print_d h ++ "," ++ print_d v ++ rest) old
      = (true, Delta.mk h v))
  /\ (forall w h old,
         valid_size (RectangleSize.mk w h) ->
         parse_rectangle_size (print_d w ++ "," ++ print_d h ++ rest) old
         = (true, RectangleSize.mk w h))
  /\ (forall l t r b old,
         valid_border (Border.mk l t r b) ->
         parse_border (print_d l ++ "," ++ print_d t ++ "," ++ print_d r ++ ","
                               ++ print_d b ++ rest) old
         = (true, Border.mk l t r b))
  /\ (forall a b c d old,
         valid_rectangle count_pixels
           (Rectangle.mk (Point.mk a b) (Point.mk c d)) ->
         parse_rectangle count_pixels
           (print_d a ++ "," ++ print_d b ++ "," ++ print_d c ++ ","
                    ++ print_d d ++ rest) old
         = (true, Rectangle.mk (Point.mk a b) (Point.mk c d))).
Proof.
  intros Hrest. repeat match goal with |- _ /\ _ => split end.
  - intros h v old [Hh Hv]. apply parse_delta_printed; assumption.
  - intros w h old (Hw & Hh & Hw0 & Hh0). apply parse_size_printed; assumption.
  - intros l t r b old Hvalid. apply parse_border_printed; assumption.
  - intros a b c d old Hvalid. apply parse_rectangle_printed; assumption.
Qed.

Lemma text_after_fields_ignored_witness :
  parse_delta "1,2,3" (Delta.mk 0 0) = (true, Delta.mk 1 2)
  /\ parse_border "1,2,3,4,5" (Border.mk 0 0 0 0) = (true, Border.mk 1 2 3 4).
Proof.
  pose proof (text_after_fields_ignored SpecModel.count_pixels ",3" eq_refl)
    as (Hd & _).
  pose proof (text_after_fields_ignored SpecModel.count_pixels ",5" eq_refl)
    as (_ & _ & Hb & _).
  split.
  - apply (Hd 1 2). split; cbn; unfold in_int32, INT32_MIN, INT32_MAX; lia.
  - apply (Hb 1 2 3 4). unfold valid_border, in_int32, INT32_MIN, INT32_MAX.
    cbn. lia.
Defined.

Lemma skip_space_app (ws s : string) :
  all_space ws = true -> skip_space (ws ++ s) = skip_space s.
Proof.
  induction ws as [| c ws IH]; cbn [all_space String.append skip_space].
  - reflexivity.
  - intros H. apply andb_true_iff in H as [-> H]. apply IH. exact H.
Qed.

Lemma conv_d_skip_space (ws s : string) :
  all_space ws = true -> conv_d (ws ++ s) = conv_d s.
Proof.
  intros H. unfold conv_d. rewrite skip_space_app by exact H. reflexivity.
Qed.

Lemma sscanf_skip_space (ws s : string) (fmt : list directive) :
  all_space ws = true ->
  sscanf conv_d (ws ++ s) (Conv :: fmt) = sscanf conv_d s (Conv :: fmt).
Proof.
  intros H. unfold sscanf. cbn [sscanf_from].
  rewrite conv_d_skip_space by exact H. reflexivity.
Qed.

(** X9. White space is skipped before a number and nowhere else.  Leading
    white space does not change the result of any of the numeric parsers,
    and white space after a comma is skipped; but a number that is not
    directly followed by a comma ends the scan, so a pair written with a
    space before its comma is read as its first number, twice. *)
Theorem white_space_in_numbers (count_pixels : Rectangle.t -> Z)
    (ws : string) :
  all_space ws = true ->
  (forall str i1 i2,
      parse_symmetric_integers (ws ++ str) i1 i2
      = parse_symmetric_integers str i1 i2)
  /\ (forall str old,
         parse_rectangle count_pixels (ws ++ str) old
         = parse_rectangle count_pixels str old)
  /\ (forall str old, parse_border (ws ++ str) old = parse_border str old)
  /\ (forall a b i1 i2,
         in_int32 a -> in_int32 b ->
         parse_symmetric_integers (print_d a ++ "," ++ ws ++ print_d b) i1 i2
         = (true, (a, b)))
  /\ (forall a rest i1 i2,
         in_int32 a ->
         starts_with_digit rest = false -> not_headed_by "," rest ->
         parse_symmetric_integers (print_d a ++ rest) i1 i2 = (true, (a, a))).
Proof.
  intros Hws. repeat match goal with |- _ /\ _ => split end.
  - intros str i1 i2. unfold parse_symmetric_integers, fmt_pair.
    rewrite sscanf_skip_space by exact Hws. reflexivity.
  - intros str old. unfold parse_rectangle, fmt_quad.
    rewrite sscanf_skip_space by exact Hws. reflexivity.
  - intros str old. unfold parse_border, fmt_quad.
    rewrite sscanf_skip_space by exact Hws. reflexivity.
  - intros a b i1 i2 Ha Hb. apply symmetric_integers_two.
    exists (ws ++ print_d b)%string, EmptyString. split.
    + apply (conv_d_print_d a (String "," _)); [exact Ha | reflexivity].
    + rewrite conv_d_skip_space by exact Hws.
      rewrite <- (append_empty (print_d b)) at 1.
      apply conv_d_print_d; [exact Hb | reflexivity].
  - intros a rest i1 i2 Ha Hdigit Hcomma. apply symmetric_integers_one.
    exists rest. split; [apply conv_d_print_d; assumption |].
    intros s1 ->. exfalso. apply Hcomma. reflexivity.
Qed.

Lemma white_space_in_numbers_witness :
  parse_symmetric_integers "  10, 20" 0 0 = (true, (10, 20))
  /\ parse_symmetric_integers "10 ,20" 0 0 = (true, (10, 10)).
Proof.
  pose proof (white_space_in_numbers SpecModel.count_pixels "  " eq_refl)
    as (Hlead & _).
  pose proof (white_space_in_numbers SpecModel.count_pixels " " eq_refl)
    as (_ & _ & _ & Hafter & Hbefore).
  assert (in_int32 10 /\ in_int32 20) as [H10 H20]
      by (unfold in_int32, INT32_MIN, INT32_MAX; lia).
  split.
  - rewrite (Hlead "10, 20"). apply (Hafter 10 20 0 0 H10 H20).
  - apply (Hbefore 10 " ,20" 0 0 H10); [reflexivity | discriminate].
Defined.

(** ** The list of wipes *)

(** One call of [parse_wipe]: it fails and the wipes are as before, or it
    succeeds, there was room, and one valid rectangle is added. *)
Lemma parse_wipe_step (count_pixels : Rectangle.t -> Z)
    (optname str : string) (w : Wipes.t) :
  let r := parse_wipe count_pixels optname str w in
  let w' := snd (fst r) in
  (fst (fst r) = false
   /\ wipe_list w' = wipe_list w /\ Wipes.count w' = Wipes.count w)
  \/ (fst (fst r) = true
      /\ (Wipes.count w < Wipes.capacity w)%nat
      /\ snd r = EmptyString
      /\ Wipes.count w' = S (Wipes.count w)
      /\ exists slot rect,
           Wipes.areas w !! Wipes.count w = Some slot
           /\ parse_rectangle count_pixels str slot = (true, rect)
           /\ 0 < count_pixels rect
           /\ wipe_list w' = (wipe_list w ++ [rect])%list).
Proof.
  cbv zeta.
  destruct (Nat.le_gt_cases (Wipes.capacity w) (Wipes.count w)) as [H | H].
  - left. rewrite parse_wipe_full by exact H. auto.
  - destruct (parse_wipe_room count_pixels optname str w H)
      as (slot & Hslot & ->).
    destruct (parse_rectangle count_pixels str slot) as [[|] rect] eqn:Hrect;
      cbn [fst snd].
    + right. repeat split; try assumption.
      exists slot, rect. repeat split; try assumption.
      * pose proof (accepted_rectangle count_pixels str slot) as Hvalid.
        rewrite Hrect in Hvalid. apply Hvalid. reflexivity.
      * unfold wipe_list. cbn [Wipes.count Wipes.areas].
        rewrite (take_S_r _ _ rect)
          by (apply list_lookup_insert_eq; exact H).
        rewrite take_insert_ge by lia. reflexivity.
    + left. repeat split.
      unfold wipe_list. cbn [Wipes.count Wipes.areas].
      apply take_insert_ge. lia.
Qed.

(** X10. A successful [parse_wipe] appends: there was room, the rectangle
    parsed from the text is added at the end of the wipes, the wipes
    before it are kept, [count] grows by one, the capacity is the same
    and nothing is written to [stderr].  The added rectangle has a
    strictly positive pixel count. *)
Theorem parse_wipe_success (count_pixels : Rectangle.t -> Z)
    (optname str : string) (w : Wipes.t) :
  let r := parse_wipe count_pixels optname str w in
  let w' := snd (fst r) in
  fst (fst r) = true ->
  (Wipes.count w < Wipes.capacity w)%nat
  /\ Wipes.count w' = S (Wipes.count w)
  /\ Wipes.capacity w' = Wipes.capacity w
  /\ snd r = EmptyString
  /\ exists rect,
       wipe_list w' = (wipe_list w ++ [rect])%list
       /\ 0 < count_pixels rect
       /\ forall old, fst (parse_rectangle count_pixels str old) = true
                      /\ snd (parse_rectangle count_pixels str old) = rect.
Proof.
  cbv zeta. intros Hok.
  pose proof (parse_wipe_capacity count_pixels optname str w) as Hcap.
  destruct (parse_wipe_step count_pixels optname str w)
    as [(Hfail & _) | (_ & Hroom & Herr & Hcount & slot & rect & Hslot & Hrect
                       & Hpos & Hlist)];
    [congruence |].
  repeat match goal with |- _ /\ _ => split end; try assumption.
  exists rect. repeat match goal with |- _ /\ _ => split end; try assumption.
  intros old.
  assert (fst (parse_rectangle count_pixels str slot) = true) as Hfst
      by (rewrite Hrect; reflexivity).
  destruct (parse_rectangle_inv _ _ _ Hfst) as (a & b & c & d & Hfour).
  rewrite (parse_rectangle_four _ _ _ _ _ _ _ Hfour) in Hrect.
  rewrite (parse_rectangle_four _ _ _ _ _ _ _ Hfour). cbn [fst snd].
  injection Hrect as Hpix <-. auto.
Qed.

Lemma parse_wipe_success_witness :
  let r0 := Rectangle.mk (Point.mk 0 0) (Point.mk 0 0) in
  Wipes.count (snd (fst (SpecModel.parse_wipe "wipe" "1,1,5,5"
                           (Wipes.mk [r0; r0] 1)))) = 2%nat.
Proof.
  cbv zeta.
  apply (parse_wipe_success SpecModel.count_pixels "wipe" "1,1,5,5"
           (Wipes.mk _ 1)).
  reflexivity.
Defined.

(** X11. The wipes are only ever appended to: after any sequence of
    [parse_wipe] calls the wipes that were in the list are still its first
    wipes, in the same order, and [count] has grown by at most one for
    each call. *)
Theorem parse_wipes_extends (count_pixels : Rectangle.t -> Z)
    (calls : list (string * string)) (w : Wipes.t) :
  (exists added,
      wipe_list (parse_wipes count_pixels calls w)
      = (wipe_list w ++ added)%list
      /\ (length added <= length calls)%nat)
  /\ (Wipes.count w <= Wipes.count (parse_wipes count_pixels calls w)
      <= Wipes.count w + length calls)%nat.
Proof.
  revert w. induction calls as [| [optname str] calls IH]; intros w.
  - cbn. split; [| lia]. exists []. rewrite app_nil_r. split; [reflexivity | cbn; lia].
  - change (parse_wipes count_pixels ((optname, str) :: calls) w)
      with (parse_wipes count_pixels calls
              (snd (fst (parse_wipe count_pixels optname str w)))).
    destruct (IH (snd (fst (parse_wipe count_pixels optname str w))))
      as [(added & Hlist & Hlen) Hcount].
    destruct (parse_wipe_step count_pixels optname str w)
      as [(_ & Hsame & Hc) | (_ & _ & _ & Hc & slot & rect & _ & _ & _ & Hone)].
    + rewrite Hsame in Hlist. rewrite Hc in Hcount. split.
      * exists added. split; [exact Hlist | cbn; lia].
      * cbn [length]. lia.
    + rewrite Hone, <- app_assoc in Hlist. rewrite Hc in Hcount. split.
      * exists (rect :: added). split; [exact Hlist | cbn; lia].
      * cbn [length]. lia.
Qed.

(** X12. Every wipe of the list is a valid rectangle, if this was so
    before: [parse_wipe] never adds a rectangle without pixels, whatever
    the sequence of calls. *)
Theorem parse_wipes_valid (count_pixels : Rectangle.t -> Z)
    (calls : list (string * string)) (w : Wipes.t) :
  Forall (fun rect => 0 < count_pixels rect) (wipe_list w) ->
  Forall (fun rect => 0 < count_pixels rect)
         (wipe_list (parse_wipes count_pixels calls w)).
Proof.
  revert w. induction calls as [| [optname str] calls IH]; intros w Hw.
  - exact Hw.
  - change (parse_wipes count_pixels ((optname, str) :: calls) w)
      with (parse_wipes count_pixels calls
              (snd (fst (parse_wipe count_pixels optname str w)))).
    apply IH.
    destruct (parse_wipe_step count_pixels optname str w)
      as [(_ & -> & _) | (_ & _ & _ & _ & slot & rect & _ & _ & Hpos & ->)].
    + exact Hw.
    + apply Forall_app. split; [exact Hw |].
      apply Forall_singleton. exact Hpos.
Qed.

Lemma parse_wipes_valid_witness :
  let r0 := Rectangle.mk (Point.mk 0 0) (Point.mk 0 0) in
  Forall (fun rect => 0 < SpecModel.count_pixels rect)
         (wipe_list
            (parse_wipes SpecModel.count_pixels
               [("wipe", "1,1,5,5"); ("wipe", "4,4,4,4"); ("wipe", "0,0,2,2")]
               (Wipes.mk [r0; r0; r0] 0))).
Proof.
  cbv zeta. apply parse_wipes_valid. apply Forall_nil. exact I.
Defined.

(** X13. A full list is final: once [count] has reached the capacity, no
    sequence of [parse_wipe] calls changes anything in the structure. *)
Theorem parse_wipes_full (count_pixels : Rectangle.t -> Z)
    (calls : list (string * string)) (w : Wipes.t) :
  (Wipes.capacity w <= Wipes.count w)%nat ->
  parse_wipes count_pixels calls w = w.
Proof.
  intros Hfull. induction calls as [| [optname str] calls IH].
  - reflexivity.
  - change (parse_wipes count_pixels ((optname, str) :: calls) w)
      with (parse_wipes count_pixels calls
              (snd (fst (parse_wipe count_pixels optname str w)))).
    rewrite parse_wipe_full by exact Hfull. exact IH.
Qed.

Lemma parse_wipes_full_witness :
  let r1 := Rectangle.mk (Point.mk 0 0) (Point.mk 3 3) in
  parse_wipes SpecModel.count_pixels
    [("wipe", "1,1,5,5"); ("wipe", "x")] (Wipes.mk [r1; r1] 2)
  = Wipes.mk [r1; r1] 2.
Proof.
  cbv zeta. apply parse_wipes_full. cbn. lia.
Defined.

(** ** Directions *)

(** X14. [direction_to_string] and [parse_direction]: the flags parsed
    from the printed form of a direction are the flags of that direction,
    for each of the four directions; the parse succeeds for all of them
    but "[none]", which has no direction letter and is not the word
    "none".  The four printed forms are different. *)
Theorem direction_to_string_parsed (d old : Direction.t) :
  snd (parse_direction (direction_to_string d) old) = d
  /\ (fst (parse_direction (direction_to_string d) old) = true <->
      d <> Direction.mk false false)
  /\ (forall d2, direction_to_string d = direction_to_string d2 -> d = d2).
Proof.
  destruct d as [[|] [|]]; (split; [reflexivity | split]);
    try (split; [discriminate | reflexivity]);
    try (split; [discriminate | intros H; exfalso; apply H; reflexivity]);
    intros [[|] [|]]; (reflexivity || discriminate).
Qed.

Lemma strchr_app (c : ascii) (s1 s2 : string) :
  c <> zero ->
  non_null (strchr (s1 ++ s2) c)
  = non_null (strchr s1 c) || non_null (strchr s2 c).
Proof.
  intros Hc. induction s1 as [| c' s1 IH]; cbn [String.append strchr].
  - destruct (Ascii.eqb_spec c zero); [contradiction | reflexivity].
  - destruct (Ascii.eqb c' c); [reflexivity | exact IH].
Qed.

(** X15. The direction letters are looked for in the whole text: the
    flags of a concatenation are the disjunctions of the flags of its
    parts, so a text with a direction letter is accepted whatever is
    written before or after it. *)
Theorem parse_direction_concat (s1 s2 : string) (d : Direction.t) :
  let flags s := snd (parse_direction s d) in
  Direction.horizontal (flags (s1 ++ s2)%string)
  = Direction.horizontal (flags s1) || Direction.horizontal (flags s2)
  /\ Direction.vertical (flags (s1 ++ s2)%string)
     = Direction.vertical (flags s1) || Direction.vertical (flags s2)
  /\ (Direction.horizontal (flags s1) || Direction.vertical (flags s1) = true ->
      fst (parse_direction (s1 ++ s2) d) = true
      /\ fst (parse_direction (s2 ++ s1) d) = true).
Proof.
  cbv zeta. unfold parse_direction.
  cbn [fst snd Direction.horizontal Direction.vertical].
  rewrite !(strchr_app _ s1 s2), !(strchr_app _ s2 s1) by discriminate.
  repeat match goal with |- _ /\ _ => split end.
  - destruct (non_null (strchr s1 "h")), (non_null (strchr s2 "h")),
      (non_null (strchr s1 "H")), (non_null (strchr s2 "H")); reflexivity.
  - destruct (non_null (strchr s1 "v")), (non_null (strchr s2 "v")),
      (non_null (strchr s1 "V")), (non_null (strchr s2 "V")); reflexivity.
  - destruct (non_null (strchr s1 "h")), (non_null (strchr s1 "H")),
      (non_null (strchr s1 "v")), (non_null (strchr s1 "V")); cbn;
      try discriminate; intros _; split; rewrite ?orb_true_r; reflexivity.
Qed.

Lemma parse_direction_concat_witness :
  fst (parse_direction ("none or " ++ "v") (Direction.mk false false)) = true.
Proof.
  apply (parse_direction_concat "v" "none or " (Direction.mk false false)).
  reflexivity.
Defined.

(** ** More on colours *)

Lemma char_code_inj (c1 c2 : ascii) : char_code c1 = char_code c2 -> c1 = c2.
Proof.
  unfold char_code. intros H. apply N2Z.inj in H.
  rewrite <- (ascii_N_embedding c1), <- (ascii_N_embedding c2), H.
  reflexivity.
Qed.

Lemma strcmp_equal (s1 : string) :
  forall s2, c_string s1 -> c_string s2 -> strcmp s1 s2 = 0 <-> s1 = s2.
Proof.
  unfold c_string, occurs.
  induction s1 as [| c1 s1 IH]; intros [| c2 s2] H1 H2;
    cbn [strcmp list_ascii_of_string In] in *.
  - tauto.
  - split; [| discriminate].
    intros H. exfalso. apply H2. left. apply char_code_inj.
    change (char_code zero) with 0. lia.
  - split; [| discriminate].
    intros H. exfalso. apply H1. left. apply char_code_inj.
    change (char_code zero) with 0. lia.
  - destruct (Z.eqb_spec (char_code c1) (char_code c2)) as [Heq | Hne].
    + apply char_code_inj in Heq. subst c2. rewrite IH by tauto.
      split; [intros ->; reflexivity | intros [= ?]; assumption].
    + split; [lia | intros [= ? _]; subst; contradiction].
Qed.

Lemma sscanf_single (s : string) :
  sscanf conv_d s [Conv]
  = match conv_d s with
    | Converted v _ => (1, [v])
    | MatchFailure => (0, [])
    | InputFailure => (EOF, [])
    end.
Proof. unfold sscanf. cbn. destruct (conv_d s); reflexivity. Qed.

Lemma c_string_literal_black : c_string "black".
Proof.
  unfold c_string, occurs. cbn.
  intros H. repeat (destruct H as [H | H]; [discriminate H |]). exact H.
Qed.

Lemma c_string_literal_white : c_string "white".
Proof.
  unfold c_string, occurs. cbn.
  intros H. repeat (destruct H as [H | H]; [discriminate H |]). exact H.
Qed.

Lemma print_d_not_a_word (v : Z) :
  (strcmp (print_d v) "black" =? 0) = false
  /\ (strcmp (print_d v) "white" =? 0) = false.
Proof.
  unfold print_d. destruct (Z.ltb_spec v 0).
  - split; reflexivity.
  - apply digits_not_a_word. apply decimal_digits_head; lia.
Qed.

Section MoreColorFacts.
Variables PIXEL_BLACK PIXEL_WHITE : Pixel.t.
Variable pixel_from_value : Z -> Pixel.t.

Local Abbreviation parse :=
  (parse_color PIXEL_BLACK PIXEL_WHITE pixel_from_value).

(** X16. [parse_color] accepts a C string exactly when it is the word
    "black", the word "white", or begins (after white space) with a
    decimal integer; text after the integer is ignored, and the colour is
    then made from the 32 bits of the integer.  A rejected text leaves the
    colour slot as it was. *)
Theorem parse_color_accepts (str : string) (color : Pixel.t) :
  c_string str ->
  (fst (parse str color) = true <->
   str = "black" \/ str = "white"
   \/ exists v rest, conv_d str = Converted v rest)
  /\ (fst (parse str color) = false -> snd (parse str color) = color)
  /\ (forall v rest,
         conv_d str = Converted v rest ->
         str <> "black" -> str <> "white" ->
         parse str color = (true, pixel_from_value (to_uint32 v))).
Proof.
  intros Hstr.
  pose proof (strcmp_equal str "black" Hstr c_string_literal_black) as Hb.
  pose proof (strcmp_equal str "white" Hstr c_string_literal_white) as Hw.
  unfold parse_color. rewrite sscanf_single.
  destruct (Z.eqb_spec (strcmp str "black") 0) as [Hb0 | Hb0].
  { cbn [fst snd]. split; [| split].
    - split; [intros _; left; apply Hb, Hb0 | reflexivity].
    - discriminate.
    - intros v rest _ Hne. exfalso. apply Hne, Hb, Hb0. }
  destruct (Z.eqb_spec (strcmp str "white") 0) as [Hw0 | Hw0].
  { cbn [fst snd]. split; [| split].
    - split; [intros _; right; left; apply Hw, Hw0 | reflexivity].
    - discriminate.
    - intros v rest _ _ Hne. exfalso. apply Hne, Hw, Hw0. }
  assert (~ (str = "black" \/ str = "white")) as Hword
      by (intros [H | H]; [apply Hb in H | apply Hw in H]; contradiction).
  destruct (conv_d str) as [v rest | |]; cbn; (split; [| split]).
  - split; [intros _; right; right; eauto | reflexivity].
  - discriminate.
  - intros v' rest' [= <- <-] _ _. reflexivity.
  - split; [discriminate | intros [H | [H | (v & rest & H)]]];
      [tauto | tauto | discriminate H].
  - reflexivity.
  - intros v rest H. discriminate H.
  - split; [discriminate | intros [H | [H | (v & rest & H)]]];
      [tauto | tauto | discriminate H].
  - reflexivity.
  - intros v rest H. discriminate H.
Qed.

(** X17. [parse_color] reads a signed number into an unsigned variable:
    the printed form of any [int32_t] is accepted, and a negative number
    [v] gives the colour of the packed value [v + 2^32]. *)
Theorem parse_color_signed (v : Z) (color : Pixel.t) :
  in_int32 v ->
  parse (print_d v) color
  = (true, pixel_from_value (if v <? 0 then v + 2 ^ 32 else v)).
Proof.
  intros Hv. destruct (print_d_not_a_word v) as [Hb Hw].
  unfold parse_color. rewrite Hb, Hw, sscanf_single.
  rewrite <- (append_empty (print_d v)) at 1.
  rewrite conv_d_print_d by (exact Hv || reflexivity).
  cbn [negb Z.eqb Pos.eqb stored]. cbn.
  unfold in_int32, INT32_MIN, INT32_MAX in Hv. unfold to_uint32.
  do 2 f_equal. destruct (Z.ltb_spec v 0).
  - rewrite <- (Z.mod_add v 1 (2 ^ 32)) by lia.
    rewrite Z.mod_small by lia. lia.
  - apply Z.mod_small. lia.
Qed.
End MoreColorFacts.

Lemma parse_color_accepts_witness :
  SpecModel.parse_color "12 apples" (Pixel.mk 1 2 3) = (true, Pixel.mk 0 0 12)
  /\ snd (SpecModel.parse_color "Black" (Pixel.mk 1 2 3)) = Pixel.mk 1 2 3.
Proof.
  assert (c_string "12 apples") as H1.
  { unfold c_string, occurs. cbn.
    intros H. repeat (destruct H as [H | H]; [discriminate H |]). exact H. }
  assert (c_string "Black") as H2.
  { unfold c_string, occurs. cbn.
    intros H. repeat (destruct H as [H | H]; [discriminate H |]). exact H. }
  pose proof (parse_color_accepts SpecModel.PIXEL_BLACK SpecModel.PIXEL_WHITE
                SpecModel.pixel_from_value "12 apples" (Pixel.mk 1 2 3) H1)
    as (_ & _ & Hnum).
  pose proof (parse_color_accepts SpecModel.PIXEL_BLACK SpecModel.PIXEL_WHITE
                SpecModel.pixel_from_value "Black" (Pixel.mk 1 2 3) H2)
    as (_ & Hfail & _).
  split.
  - apply (Hnum 12 " apples"); [reflexivity | discriminate | discriminate].
  - apply Hfail. reflexivity.
Defined.

Lemma parse_color_signed_witness :
  SpecModel.parse_color "-2" (Pixel.mk 0 0 0) = (true, Pixel.mk 255 255 254).
Proof.
  apply (parse_color_signed SpecModel.PIXEL_BLACK SpecModel.PIXEL_WHITE
           SpecModel.pixel_from_value (-2)).
  unfold in_int32, INT32_MIN, INT32_MAX. lia.
Defined.




Section PrintColorFacts.
Variables PIXEL_BLACK PIXEL_WHITE : Pixel.t.
Variable compare_pixel : Pixel.t -> Pixel.t -> Z.

Hypothesis compare_pixel_eq : forall a b, compare_pixel a b = 0 <-> a = b.

Local Abbreviation print :=
  (print_color PIXEL_BLACK PIXEL_WHITE compare_pixel).

End PrintColorFacts.


(** ** The three pair parsers on the same text *)

(** X19. The pair parsers differ by their validation only: a text accepted
    as a scan step is accepted as a size, and a text accepted as a size is
    accepted as a delta, with the same two numbers each time, whatever the
    slots held before. *)
Theorem pair_parsers_nested (str : string)
    (old_d : Delta.t) (old_s : RectangleSize.t) :
  (fst (parse_scan_step str old_d) = true ->
   parse_rectangle_size str old_s
   = (true,
      RectangleSize.mk
        (Delta.horizontal (snd (parse_scan_step str old_d)))
        (Delta.vertical (snd (parse_scan_step str old_d)))))
  /\ (fst (parse_rectangle_size str old_s) = true ->
      parse_delta str old_d
      = (true,
         Delta.mk
           (RectangleSize.width (snd (parse_rectangle_size str old_s)))
           (RectangleSize.height (snd (parse_rectangle_size str old_s))))).
Proof.
  unfold parse_scan_step, parse_rectangle_size, parse_delta.
  destruct (values_cases conv_d str) as [Hno | [[a H] | (a & b & H)]].
  - rewrite (symmetric_integers_none str (Delta.horizontal old_d)
               (Delta.vertical old_d) Hno).
    rewrite (symmetric_integers_none str (RectangleSize.width old_s)
               (RectangleSize.height old_s) Hno).
    cbn. split; discriminate.
  - rewrite (symmetric_integers_one str (Delta.horizontal old_d)
               (Delta.vertical old_d) a H).
    rewrite (symmetric_integers_one str (RectangleSize.width old_s)
               (RectangleSize.height old_s) a H).
    cbn. split; [| reflexivity].
    rewrite andb_true_iff, !Z.ltb_lt. intros [Ha _].
    destruct (Z.leb_spec 0 a); [reflexivity | lia].
  - rewrite (symmetric_integers_two str (Delta.horizontal old_d)
               (Delta.vertical old_d) a b H).
    rewrite (symmetric_integers_two str (RectangleSize.width old_s)
               (RectangleSize.height old_s) a b H).
    cbn. split; [| reflexivity].
    rewrite andb_true_iff, !Z.ltb_lt. intros [Ha Hb].
    destruct (Z.leb_spec 0 a), (Z.leb_spec 0 b); (reflexivity || lia).
Qed.

Lemma pair_parsers_nested_witness :
  parse_rectangle_size "3,9" (RectangleSize.mk (-1) (-1))
  = (true, RectangleSize.mk 3 9)
  /\ parse_delta "0" (Delta.mk 5 5) = (true, Delta.mk 0 0).
Proof.
  pose proof (pair_parsers_nested "3,9" (Delta.mk 0 0) (RectangleSize.mk (-1) (-1)))
    as (Hstep & _).
  pose proof (pair_parsers_nested "0" (Delta.mk 5 5) (RectangleSize.mk 1 1))
    as (_ & Hsize).
  split; [apply Hstep | apply Hsize]; reflexivity.
Defined.
